(** * gocbcore: agent configuration and sub-document operations

    A shallow embedding of [agent.go], [agentops_subdoc.go] and the error
    types of the package, with the properties of the specification that
    concern them.

    Conventions of the embedding:
    - a Go [[]byte] is a [list byte]; where the code tells a nil slice from an
      empty one ([op.Value != nil]) the slice is an [option (list byte)];
    - unsigned integers of width [w] are [Z] reduced modulo [2^w] where the
      code converts ([uint16(len(pathBytes))]);
    - a run-time panic (index or slice bound out of range) is [None] in the
      [option] monad, so that [f x = Some r] says that [f] returns [r] and
      does not panic;
    - a closure handed over as completion handler is a function stored in the
      request, returning the one callback invocation it performs. *)

From Stdlib Require Import ZArith List Lia Bool.
From Stdlib Require Import Strings.Byte Strings.String Strings.Ascii.
From stdpp Require Import base option list gmap strings pretty.

Local Open Scope Z_scope.

(** ** Bytes and [encoding/binary] big-endian helpers

    [encoding/binary] belongs to Go's standard library; its big-endian
    readers and writers are given by their arithmetic meaning (most
    significant byte first). *)

Module Bytes.

(** Go's conversion [byte(z)]: the low eight bits. *)
Definition u8 (z : Z) : byte :=
  match Byte.of_N (Z.to_N (z mod 256)) with
  | Some b => b
  | None => x00
  end.

Definition byteZ (b : byte) : Z := Z.of_N (Byte.to_N b).

(** [make([]byte, n)] *)
Definition make (n : nat) : list byte := replicate n x00.

(** [b[i] = v] *)
Definition store (b : list byte) (i : nat) (v : byte) : option (list byte) :=
  if (i <? length b)%nat then Some (<[i:=v]> b) else None.

(** [copy(dst[off:], src)]: the slice expression panics when [off] exceeds
    the length, the copy itself stops at the shorter of the two. *)
Definition copy (dst : list byte) (off : nat) (src : list byte) : option (list byte) :=
  if (off <=? length dst)%nat
  then Some (take off dst ++ take (length dst - off) src ++ drop (off + length src) dst)
  else None.

(** [binary.BigEndian.PutUint16(b[off:], v)] *)
Definition PutUint16 (b : list byte) (off : nat) (v : Z) : option (list byte) :=
  if (off + 2 <=? length b)%nat
  then Some (take off b ++ [u8 (v / 2 ^ 8); u8 v] ++ drop (off + 2) b)
  else None.

(** [binary.BigEndian.PutUint32(b[off:], v)] *)
Definition PutUint32 (b : list byte) (off : nat) (v : Z) : option (list byte) :=
  if (off + 4 <=? length b)%nat
  then Some (take off b ++ [u8 (v / 2 ^ 24); u8 (v / 2 ^ 16); u8 (v / 2 ^ 8); u8 v]
               ++ drop (off + 4) b)
  else None.

(** [binary.BigEndian.Uint16(b)]: panics on fewer than two bytes. *)
Definition Uint16 (b : list byte) : option Z :=
  match b with
  | b0 :: b1 :: _ => Some (byteZ b0 * 2 ^ 8 + byteZ b1)
  | _ => None
  end.

(** [binary.BigEndian.Uint32(b)] *)
Definition Uint32 (b : list byte) : option Z :=
  match b with
  | b0 :: b1 :: b2 :: b3 :: _ =>
      Some (byteZ b0 * 2 ^ 24 + byteZ b1 * 2 ^ 16 + byteZ b2 * 2 ^ 8 + byteZ b3)
  | _ => None
  end.

(** [binary.BigEndian.Uint64(b)] *)
Definition Uint64 (b : list byte) : option Z :=
  match b with
  | b0 :: b1 :: b2 :: b3 :: b4 :: b5 :: b6 :: b7 :: _ =>
      Some (byteZ b0 * 2 ^ 56 + byteZ b1 * 2 ^ 48 + byteZ b2 * 2 ^ 40 + byteZ b3 * 2 ^ 32
            + byteZ b4 * 2 ^ 24 + byteZ b5 * 2 ^ 16 + byteZ b6 * 2 ^ 8 + byteZ b7)
  | _ => None
  end.

(** The slice expressions [b[lo:]] and [b[lo:hi]], with the capacity of a
    received buffer taken equal to its length. *)
Definition sliceFrom (b : list byte) (lo : Z) : option (list byte) :=
  if (0 <=? lo) && (lo <=? Z.of_nat (length b))
  then Some (drop (Z.to_nat lo) b)
  else None.

Definition slice (b : list byte) (lo hi : Z) : option (list byte) :=
  if (0 <=? lo) && (lo <=? hi) && (hi <=? Z.of_nat (length b))
  then Some (take (Z.to_nat (hi - lo)) (drop (Z.to_nat lo) b))
  else None.

(** The index expression [b[i]]. *)
Definition index (b : list byte) (i : Z) : option byte :=
  if (0 <=? i) && (i <? Z.of_nat (length b)) then b !! Z.to_nat i else None.

End Bytes.

(** ** Errors, packets and protocol constants *)

(** The error values the sub-document code names, [SubDocMutateError], and
    whatever else travels through an [error] interface. *)
#[local] Set Warnings "-register-all".
Inductive error : Type :=
| ErrSubDocBadMulti
| ErrProtocol
| ErrInvalidArgs
| ErrOther (description : string)
| SubDocMutateError (Err : option error) (OpIndex : Z).

(** [err != nil] and [err == ErrSubDocBadMulti] on an [error] interface
    value. *)
Definition notNil (err : option error) : bool :=
  match err with
  | Some _ => true
  | None => false
  end.

Definition isSubDocBadMulti (err : option error) : bool :=
  match err with
  | Some ErrSubDocBadMulti => true
  | _ => false
  end.

Record memdPacket : Type := mkPacket {
  Magic : byte;
  Opcode : byte;
  Datatype : Z;
  Vbucket : Z;
  Cas : Z;
  Extras : list byte;
  Key : list byte;
  Value : list byte
}.

Record MutationToken : Type := mkToken {
  VbId : Z;
  VbUuid : Z;
  SeqNo : Z
}.

Record SubDocResult : Type := mkResult {
  ResErr : option error;
  ResValue : list byte
}.

(** [SubDocOp], the per-operation structure of the multi operations.  [Value]
    keeps the difference between a nil and an empty slice. *)
Record SubDocOp : Type := mkOp {
  Op : byte;
  Flags : byte;
  Path : string;
  OpValue : option (list byte)
}.

(** The one callback invocation a completion handler makes. *)
Inductive cbcall : Type :=
| GetInCb (value : list byte) (cas : Z) (err : option error)
| ExistsInCb (cas : Z) (err : option error)
| StoreInCb (cas : Z) (tok : MutationToken) (err : option error)
| CounterInCb (value : list byte) (cas : Z) (tok : MutationToken) (err : option error)
| RemoveInCb (cas : Z) (tok : MutationToken) (err : option error)
| LookupInCb (results : option (list SubDocResult)) (cas : Z) (err : option error)
| MutateInCb (results : option (list SubDocResult)) (cas : Z) (tok : MutationToken)
             (err : option error).

(** A handler receives the response and the request (both pointers, [None]
    for nil) and the error. *)
Definition handler : Type :=
  option memdPacket -> option memdPacket -> option error -> option cbcall.

Record memdQRequest : Type := mkRequest {
  packet : memdPacket;
  Callback : handler
}.

(** What an operation does at its end: hand the request to
    [agent.dispatchOp], or return an error without dispatching. *)
Inductive submit : Type :=
| Dispatch (req : memdQRequest)
| Return (err : error).

(** Constants and the status decoder that the package declares outside the
    files at hand; the operations are parametric in them. *)
Class MemdConstants : Type := {
  ReqMagic : byte;
  CmdSubDocGet : byte;
  CmdSubDocExists : byte;
  CmdSubDocDictAdd : byte;
  CmdSubDocDictSet : byte;
  CmdSubDocDelete : byte;
  CmdSubDocReplace : byte;
  CmdSubDocArrayPushLast : byte;
  CmdSubDocArrayPushFirst : byte;
  CmdSubDocArrayInsert : byte;
  CmdSubDocArrayAddUnique : byte;
  CmdSubDocCounter : byte;
  CmdSubDocMultiLookup : byte;
  CmdSubDocMultiMutation : byte;
  SubDocOpGet : byte;
  SubDocOpExists : byte;
  SubDocOpDictAdd : byte;
  SubDocOpDictSet : byte;
  SubDocOpDelete : byte;
  SubDocOpReplace : byte;
  SubDocOpArrayPushLast : byte;
  SubDocOpArrayPushFirst : byte;
  SubDocOpArrayInsert : byte;
  SubDocOpArrayAddUnique : byte;
  SubDocOpCounter : byte;
  SubDocFlagMkDirP : byte;
  StatusSuccess : Z;
  getMemdError : Z -> option error
}.

Definition uint16 (z : Z) : Z := z mod 2 ^ 16.
Definition uint32 (z : Z) : Z := z mod 2 ^ 32.

(** ** [agentops_subdoc.go]: single-path operations *)

Section SubDoc.
Context `{MemdConstants}.
Import Bytes.

(** The mutation token read off a mutation's response, as each mutation
    handler does. *)
Definition readMutationToken (resp req : option memdPacket) : option MutationToken :=
  resp ← resp;
  if (16 <=? length (Extras resp))%nat then
    req ← req;
    vbUuid ← sliceFrom (Extras resp) 0 ≫= Uint64;
    seqNo ← sliceFrom (Extras resp) 8 ≫= Uint64;
    Some {| VbId := Vbucket req; VbUuid := vbUuid; SeqNo := seqNo |}
  else Some {| VbId := 0; VbUuid := 0; SeqNo := 0 |}.

Definition GetIn_handler : handler := fun resp _ err =>
  match err with
  | Some e => Some (GetInCb [] 0 (Some e))
  | None => resp ← resp; Some (GetInCb (Value resp) (Cas resp) None)
  end.

Definition GetIn (key : list byte) (path : string) : option submit :=
  let pathBytes := list_byte_of_string path in
  let extraBuf := make 3 in
  extraBuf ← PutUint16 extraBuf 0 (uint16 (Z.of_nat (length pathBytes)));
  extraBuf ← store extraBuf 2 x00;
  Some (Dispatch {|
    packet := {| Magic := ReqMagic; Opcode := CmdSubDocGet; Datatype := 0; Vbucket := 0;
                 Cas := 0; Extras := extraBuf; Key := key; Value := pathBytes |};
    Callback := GetIn_handler |}).

Definition ExistsIn_handler : handler := fun resp _ err =>
  match err with
  | Some e => Some (ExistsInCb 0 (Some e))
  | None => resp ← resp; Some (ExistsInCb (Cas resp) None)
  end.

Definition ExistsIn (key : list byte) (path : string) : option submit :=
  let pathBytes := list_byte_of_string path in
  let extraBuf := make 3 in
  extraBuf ← PutUint16 extraBuf 0 (uint16 (Z.of_nat (length pathBytes)));
  extraBuf ← store extraBuf 2 x00;
  Some (Dispatch {|
    packet := {| Magic := ReqMagic; Opcode := CmdSubDocExists; Datatype := 0; Vbucket := 0;
                 Cas := 0; Extras := extraBuf; Key := key; Value := pathBytes |};
    Callback := ExistsIn_handler |}).

Definition storeIn_handler : handler := fun resp req err =>
  match err with
  | Some e => Some (StoreInCb 0 {| VbId := 0; VbUuid := 0; SeqNo := 0 |} (Some e))
  | None =>
      mutToken ← readMutationToken resp req;
      resp ← resp;
      Some (StoreInCb (Cas resp) mutToken None)
  end.

(** The extras of the mutating single-path operations: three bytes, or
    seven when an expiry is given. *)
Definition subdocExtras (pathBytes : list byte) (expiry : Z) : option (list byte) :=
  let extraBuf := if expiry =? 0 then make 3 else make 7 in
  extraBuf ← PutUint16 extraBuf 0 (uint16 (Z.of_nat (length pathBytes)));
  extraBuf ← store extraBuf 2 x00;
  if (7 <=? length extraBuf)%nat then PutUint32 extraBuf 3 expiry else Some extraBuf.

(** [subdocFlags] collects [SubDocFlagMkDirP] when [createParents] is set,
    and the code then never reads it: byte 2 of the extras is the
    constant 0. *)
Definition storeIn (opcode : byte) (key : list byte) (path : string) (value : list byte)
    (createParents : bool) (cas : Z) (expiry : Z) : option submit :=
  let pathBytes := list_byte_of_string path in
  let valueBuf := make (length pathBytes + length value) in
  valueBuf ← copy valueBuf 0 pathBytes;
  valueBuf ← copy valueBuf (length pathBytes) value;
  let subdocFlags := if createParents then Z.lor 0 (byteZ SubDocFlagMkDirP) else 0 in
  extraBuf ← subdocExtras pathBytes expiry;
  Some (Dispatch {|
    packet := {| Magic := ReqMagic; Opcode := opcode; Datatype := 0; Vbucket := 0;
                 Cas := cas; Extras := extraBuf; Key := key; Value := valueBuf |};
    Callback := storeIn_handler |}).

Definition SetIn key path value createParents cas expiry :=
  storeIn CmdSubDocDictSet key path value createParents cas expiry.
Definition AddIn key path value createParents cas expiry :=
  storeIn CmdSubDocDictAdd key path value createParents cas expiry.
Definition ReplaceIn key path value cas expiry :=
  storeIn CmdSubDocReplace key path value false cas expiry.
Definition PushFrontIn key path value createParents cas expiry :=
  storeIn CmdSubDocArrayPushFirst key path value createParents cas expiry.
Definition PushBackIn key path value createParents cas expiry :=
  storeIn CmdSubDocArrayPushLast key path value createParents cas expiry.
Definition ArrayInsertIn key path value cas expiry :=
  storeIn CmdSubDocArrayInsert key path value false cas expiry.
Definition AddUniqueIn key path value createParents cas expiry :=
  storeIn CmdSubDocArrayAddUnique key path value createParents cas expiry.

Definition CounterIn_handler : handler := fun resp req err =>
  match err with
  | Some e => Some (CounterInCb [] 0 {| VbId := 0; VbUuid := 0; SeqNo := 0 |} (Some e))
  | None =>
      mutToken ← readMutationToken resp req;
      resp ← resp;
      Some (CounterInCb (Value resp) (Cas resp) mutToken None)
  end.

Definition CounterIn (key : list byte) (path : string) (value : list byte)
    (cas : Z) (expiry : Z) : option submit :=
  let pathBytes := list_byte_of_string path in
  let valueBuf := make (length pathBytes + length value) in
  valueBuf ← copy valueBuf 0 pathBytes;
  valueBuf ← copy valueBuf (length pathBytes) value;
  extraBuf ← subdocExtras pathBytes expiry;
  Some (Dispatch {|
    packet := {| Magic := ReqMagic; Opcode := CmdSubDocCounter; Datatype := 0; Vbucket := 0;
                 Cas := cas; Extras := extraBuf; Key := key; Value := valueBuf |};
    Callback := CounterIn_handler |}).

Definition RemoveIn_handler : handler := fun resp req err =>
  match err with
  | Some e => Some (RemoveInCb 0 {| VbId := 0; VbUuid := 0; SeqNo := 0 |} (Some e))
  | None =>
      mutToken ← readMutationToken resp req;
      resp ← resp;
      Some (RemoveInCb (Cas resp) mutToken None)
  end.

Definition RemoveIn (key : list byte) (path : string) (cas : Z) (expiry : Z)
    : option submit :=
  let pathBytes := list_byte_of_string path in
  extraBuf ← subdocExtras pathBytes expiry;
  Some (Dispatch {|
    packet := {| Magic := ReqMagic; Opcode := CmdSubDocDelete; Datatype := 0; Vbucket := 0;
                 Cas := cas; Extras := extraBuf; Key := key; Value := pathBytes |};
    Callback := RemoveIn_handler |}).

(** ** Multi operations *)

(** The loop of the lookup handler over [results], from position
    [respIter] of the response body: [inl] is the error it reports
    instead of results.  Positions are Go [int]s, taken as 64 bits wide,
    so that no sum below overflows. *)
Fixpoint lookupDecode (value : list byte) (results : list SubDocResult) (respIter : Z)
    : option (error + list SubDocResult) :=
  match results with
  | [] => Some (inr [])
  | _ :: rest =>
      if Z.of_nat (length value) <? respIter + 6 then Some (inl ErrProtocol) else
      resError ← sliceFrom value (respIter + 0) ≫= Uint16;
      resValueLen ← sliceFrom value (respIter + 2) ≫= Uint32;
      if Z.of_nat (length value) <? respIter + 6 + resValueLen then Some (inl ErrProtocol) else
      resValue ← slice value (respIter + 6) (respIter + 6 + resValueLen);
      decoded ← lookupDecode value rest (respIter + (6 + resValueLen));
      match decoded with
      | inl e => Some (inl e)
      | inr rest' =>
          Some (inr ({| ResErr := getMemdError resError; ResValue := resValue |} :: rest'))
      end
  end.

Definition SubDocLookup_handler (results : list SubDocResult) : handler := fun resp _ err =>
  if notNil err && negb (isSubDocBadMulti err) then Some (LookupInCb None 0 err)
  else
    resp ← resp;
    decoded ← lookupDecode (Value resp) results 0;
    match decoded with
    | inl e => Some (LookupInCb None 0 (Some e))
    | inr results' => Some (LookupInCb (Some results') (Cas resp) err)
    end.

(** First loop of both multi operations. *)
Definition pathBytesList (ops : list SubDocOp) : list (list byte) :=
  map (fun op => list_byte_of_string (Path op)) ops.

Definition pathBytesTotal (ops : list SubDocOp) : nat :=
  foldl (fun total op => (total + length (list_byte_of_string (Path op)))%nat) 0%nat ops.

Definition valueBytesTotal (ops : list SubDocOp) : nat :=
  foldl (fun total op => (total + length (default [] (OpValue op)))%nat) 0%nat ops.

(** Second loop of [SubDocLookup], from operation [i] on: [inl] is the
    error the function returns from inside the loop. *)
Fixpoint lookupEncode (pbl : list (list byte)) (ops : list SubDocOp) (i : nat)
    (valueBuf : list byte) (valueIter : nat) : option (error + list byte) :=
  match ops with
  | [] => Some (inr valueBuf)
  | op :: rest =>
      if negb (Byte.eqb (Op op) SubDocOpGet) && negb (Byte.eqb (Op op) SubDocOpExists)
      then Some (inl ErrInvalidArgs)
      else match OpValue op with
      | Some _ => Some (inl ErrInvalidArgs)
      | None =>
          pathBytes ← pbl !! i;
          let pathBytesLen := length pathBytes in
          valueBuf ← store valueBuf (valueIter + 0) (Op op);
          valueBuf ← store valueBuf (valueIter + 1) (Flags op);
          valueBuf ← PutUint16 valueBuf (valueIter + 2) (uint16 (Z.of_nat pathBytesLen));
          valueBuf ← copy valueBuf (valueIter + 4) pathBytes;
          lookupEncode pbl rest (S i) valueBuf (valueIter + (4 + pathBytesLen))
      end
  end.

Definition SubDocLookup (key : list byte) (ops : list SubDocOp) : option submit :=
  let results := replicate (length ops) {| ResErr := None; ResValue := [] |} in
  let pbl := pathBytesList ops in
  let valueBuf := make (length ops * 4 + pathBytesTotal ops) in
  encoded ← lookupEncode pbl ops 0 valueBuf 0;
  match encoded with
  | inl e => Some (Return e)
  | inr valueBuf =>
      Some (Dispatch {|
        packet := {| Magic := ReqMagic; Opcode := CmdSubDocMultiLookup; Datatype := 0;
                     Vbucket := 0; Cas := 0; Extras := []; Key := key; Value := valueBuf |};
        Callback := SubDocLookup_handler results |})
  end.

(** The loop of the mutation handler over the response body.  [readPos]
    is a [uint32] and wraps around; [fuel] bounds the number of rounds,
    and running out of it (which takes a wrapped position) is [None],
    like a panic. *)
Fixpoint mutateDecode (fuel : nat) (value : list byte) (results : list SubDocResult)
    (readPos : Z) : option (list SubDocResult) :=
  match fuel with
  | O => None
  | S fuel =>
      if readPos <? uint32 (Z.of_nat (length value)) then
        opIndex ← byteZ <$> index value (uint32 (readPos + 0));
        opStatus ← sliceFrom value (uint32 (readPos + 1)) ≫= Uint16;
        old ← results !! Z.to_nat opIndex;
        let results :=
          <[Z.to_nat opIndex := {| ResErr := getMemdError opStatus;
                                    ResValue := ResValue old |}]> results in
        let readPos := uint32 (readPos + 3) in
        if opStatus =? StatusSuccess then
          valLength ← sliceFrom value readPos ≫= Uint32;
          resValue ← slice value (uint32 (readPos + 4)) (uint32 (readPos + 4 + valLength));
          let results :=
            <[Z.to_nat opIndex := {| ResErr := getMemdError opStatus;
                                      ResValue := resValue |}]> results in
          mutateDecode fuel value results (uint32 (readPos + (4 + valLength)))
        else mutateDecode fuel value results readPos
      else Some results
  end.

Definition noToken : MutationToken := {| VbId := 0; VbUuid := 0; SeqNo := 0 |}.

Definition SubDocMutate_handler (results : list SubDocResult) : handler := fun resp req err =>
  if notNil err && negb (isSubDocBadMulti err) then Some (MutateInCb None 0 noToken err)
  else if isSubDocBadMulti err then
    resp ← resp;
    if negb (length (Value resp) =? 3)%nat then
      Some (MutateInCb None 0 noToken (Some ErrProtocol))
    else
      opIndex ← byteZ <$> index (Value resp) 0;
      resError ← sliceFrom (Value resp) 1 ≫= Uint16;
      let err := SubDocMutateError (getMemdError resError) opIndex in
      Some (MutateInCb None 0 noToken (Some err))
  else
    resp' ← resp;
    results' ← mutateDecode (S (length (Value resp'))) (Value resp') results 0;
    mutToken ← readMutationToken resp req;
    Some (MutateInCb (Some results') (Cas resp') mutToken None).

(** Second loop of [SubDocMutate]. *)
Definition isMutationOp (op : byte) : bool :=
  Byte.eqb op SubDocOpDictAdd || Byte.eqb op SubDocOpDictSet ||
  Byte.eqb op SubDocOpDelete || Byte.eqb op SubDocOpReplace ||
  Byte.eqb op SubDocOpArrayPushLast || Byte.eqb op SubDocOpArrayPushFirst ||
  Byte.eqb op SubDocOpArrayInsert || Byte.eqb op SubDocOpArrayAddUnique ||
  Byte.eqb op SubDocOpCounter.

Fixpoint mutateEncode (pbl : list (list byte)) (ops : list SubDocOp) (i : nat)
    (valueBuf : list byte) (valueIter : nat) : option (error + list byte) :=
  match ops with
  | [] => Some (inr valueBuf)
  | op :: rest =>
      if negb (isMutationOp (Op op)) then Some (inl ErrInvalidArgs) else
      pathBytes ← pbl !! i;
      let pathBytesLen := length pathBytes in
      let opValue := default [] (OpValue op) in
      let valueBytesLen := length opValue in
      valueBuf ← store valueBuf (valueIter + 0) (Op op);
      valueBuf ← store valueBuf (valueIter + 1) (Flags op);
      valueBuf ← PutUint16 valueBuf (valueIter + 2) (uint16 (Z.of_nat pathBytesLen));
      valueBuf ← PutUint32 valueBuf (valueIter + 4) (uint32 (Z.of_nat valueBytesLen));
      valueBuf ← copy valueBuf (valueIter + 8) pathBytes;
      valueBuf ← copy valueBuf (valueIter + 8 + pathBytesLen) opValue;
      mutateEncode pbl rest (S i) valueBuf (valueIter + (8 + pathBytesLen + valueBytesLen))
  end.

Definition SubDocMutate (key : list byte) (ops : list SubDocOp) (cas : Z) (expiry : Z)
    : option submit :=
  let results := replicate (length ops) {| ResErr := None; ResValue := [] |} in
  let pbl := pathBytesList ops in
  let valueBuf := make (length ops * 8 + pathBytesTotal ops + valueBytesTotal ops) in
  encoded ← mutateEncode pbl ops 0 valueBuf 0;
  match encoded with
  | inl e => Some (Return e)
  | inr valueBuf =>
      extraBuf ← (if expiry =? 0 then Some [] else PutUint32 (make 4) 0 expiry);
      Some (Dispatch {|
        packet := {| Magic := ReqMagic; Opcode := CmdSubDocMultiMutation; Datatype := 0;
                     Vbucket := 0; Cas := cas; Extras := extraBuf; Key := key;
                     Value := valueBuf |};
        Callback := SubDocMutate_handler results |})
  end.

End SubDoc.

(** The bytes that a path length and an expiry occupy in the extras. *)
Definition pathLenBytes (pathBytes : list byte) : list byte :=
  let n := uint16 (Z.of_nat (length pathBytes)) in [Bytes.u8 (n / 2 ^ 8); Bytes.u8 n].

Definition expiryBytes (expiry : Z) : list byte :=
  if expiry =? 0 then []
  else [Bytes.u8 (expiry / 2 ^ 24); Bytes.u8 (expiry / 2 ^ 16); Bytes.u8 (expiry / 2 ^ 8);
        Bytes.u8 expiry].

(** An instance of the constants with the values of the published binary
    protocol, to run the operations on concrete frames.  No property below
    depends on these values. *)
Definition wireConstants : MemdConstants :=
  {| ReqMagic := x80;
     CmdSubDocGet := xc5; CmdSubDocExists := xc6; CmdSubDocDictAdd := xc7;
     CmdSubDocDictSet := xc8; CmdSubDocDelete := xc9; CmdSubDocReplace := xca;
     CmdSubDocArrayPushLast := xcb; CmdSubDocArrayPushFirst := xcc;
     CmdSubDocArrayInsert := xcd; CmdSubDocArrayAddUnique := xce;
     CmdSubDocCounter := xcf; CmdSubDocMultiLookup := xd0; CmdSubDocMultiMutation := xd1;
     SubDocOpGet := xc5; SubDocOpExists := xc6; SubDocOpDictAdd := xc7;
     SubDocOpDictSet := xc8; SubDocOpDelete := xc9; SubDocOpReplace := xca;
     SubDocOpArrayPushLast := xcb; SubDocOpArrayPushFirst := xcc;
     SubDocOpArrayInsert := xcd; SubDocOpArrayAddUnique := xce; SubDocOpCounter := xcf;
     SubDocFlagMkDirP := x01;
     StatusSuccess := 0;
     getMemdError := fun code =>
       if code =? 0 then None
       else if code =? 204 then Some ErrSubDocBadMulti
       else Some (ErrOther ("status " +:+ pretty code)) |}.

(** The operations [SubDocLookup] and [SubDocMutate] accept. *)
Definition validLookupOp `{MemdConstants} (op : SubDocOp) : bool :=
  (Byte.eqb (Op op) SubDocOpGet || Byte.eqb (Op op) SubDocOpExists)
  && match OpValue op with None => true | Some _ => false end.

Definition mutationOps `{MemdConstants} : list byte :=
  [SubDocOpDictAdd; SubDocOpDictSet; SubDocOpDelete; SubDocOpReplace;
   SubDocOpArrayPushLast; SubDocOpArrayPushFirst; SubDocOpArrayInsert;
   SubDocOpArrayAddUnique; SubDocOpCounter].

(** The number of bytes the operations from some point on occupy in the
    value of a multi lookup and of a multi mutation. *)
Definition lookupSize (ops : list SubDocOp) : nat :=
  sum_list ((fun op => 4 + length (list_byte_of_string (Path op)))%nat <$> ops).

Definition mutateSize (ops : list SubDocOp) : nat :=
  sum_list ((fun op => 8 + length (list_byte_of_string (Path op))
                         + length (default [] (OpValue op)))%nat <$> ops).

(** The packet of a dispatched request. *)
Definition sentPacket (r : option submit) : option memdPacket :=
  match r with
  | Some (Dispatch req) => Some (packet req)
  | _ => None
  end.

(** The completion handler of a dispatched request. *)
Definition handlerOf (r : option submit) : option handler :=
  match r with
  | Some (Dispatch req) => Some (Callback req)
  | _ => None
  end.

(** The body of a multi-lookup response as the handler reads it: for each
    operation a 16-bit status, a 32-bit length and that many bytes of
    value. *)
Definition lookupEntry (entry : Z * list byte) : list byte :=
  let n := Z.of_nat (length entry.2) in
  [Bytes.u8 (entry.1 / 2 ^ 8); Bytes.u8 entry.1]
  ++ [Bytes.u8 (n / 2 ^ 24); Bytes.u8 (n / 2 ^ 16); Bytes.u8 (n / 2 ^ 8); Bytes.u8 n]
  ++ entry.2.

Definition lookupBody (entries : list (Z * list byte)) : list byte :=
  concat (lookupEntry <$> entries).

Definition entryInRange (entry : Z * list byte) : Prop :=
  0 <= entry.1 < 2 ^ 16 /\ Z.of_nat (length entry.2) < 2 ^ 32.

Definition decodedEntry `{MemdConstants} (entry : Z * list byte) : SubDocResult :=
  {| ResErr := getMemdError entry.1; ResValue := entry.2 |}.

(** ** [agent.go]: configuration of an agent *)

(** A [time.Duration] is a number of nanoseconds. *)
Definition Millisecond : Z := 1000000.
Definition Second : Z := 1000 * Millisecond.

(** Modelled from the spec: the type [AuthMechanism] and its constants are
    declared outside the files at hand; the spec names PLAIN and the SCRAM
    family, [agent.go] names these four constants. *)
Inductive AuthMechanism : Type :=
| PlainAuthMechanism
| ScramSha512AuthMechanism
| ScramSha256AuthMechanism
| ScramSha1AuthMechanism.

Definition isPlain (mech : AuthMechanism) : bool :=
  match mech with
  | PlainAuthMechanism => true
  | _ => false
  end.

#[global] Instance AuthMechanism_eq_dec : EqDecision AuthMechanism.
Proof. solve_decision. Defined.

(** The fields of [AgentConfig] that the modelled part of [createAgent]
    reads. *)
Record AgentConfig : Type := mkConfig {
  MemdAddrs : list string;
  HTTPAddrs : list string;
  BucketName : string;
  UseTLS : bool;
  AuthMechanisms : list AuthMechanism;
  KVConnectTimeout : Z;
  KvPoolSize : Z;
  MaxQueueSize : Z;
  HTTPRetryDelay : Z;
  CccpMaxWait : Z;
  CccpPollPeriod : Z
}.

Record routeConfig : Type := mkRoute {
  kvServerList : list string;
  mgmtEpList : list string;
  revID : Z
}.

(** What [createAgent] computes from the configuration and hands to the
    components it builds: the dialer's timeouts and mechanisms, the
    multiplexer's sizes, the pollers' periods, and the first routing
    configuration given to both multiplexers by [OnNewRouteConfig]. *)
Record agentSetup : Type := mkSetup {
  kvConnectTimeout : Z;
  serverWaitTimeout : Z;
  kvPoolSize : Z;
  maxQueueSize : Z;
  confHTTPRetryDelay : Z;
  confCccpMaxWait : Z;
  confCccpPollPeriod : Z;
  authMechanisms : list AuthMechanism;
  warnings : list string;
  httpEpList : list string;
  httpMuxRoute : routeConfig;
  kvMuxRoute : routeConfig
}.

(** [x := dflt; if config.X > 0 { x = config.X }] *)
Definition orDefault (dflt configured : Z) : Z :=
  if 0 <? configured then configured else dflt.

Definition plainWarning : string :=
  "PLAIN sends credentials in plaintext, this will cause credential leakage on the network".

(** The mechanisms [createAgent] settles on, and the warnings it logs: one
    for each PLAIN among mechanisms configured without TLS. *)
Definition defaultAuthMechanisms (config : AgentConfig) : list AuthMechanism * list string :=
  let authMechanisms := AuthMechanisms config in
  if (length authMechanisms =? 0)%nat then
    if UseTLS config then ([PlainAuthMechanism], [])
    else ([ScramSha512AuthMechanism; ScramSha256AuthMechanism; ScramSha1AuthMechanism], [])
  else if negb (UseTLS config) then
    (authMechanisms,
     (fun _ => plainWarning) <$> filter (fun mech => isPlain mech = true) authMechanisms)
  else (authMechanisms, []).

(** [agent.go] carries text of two revisions of [createAgent].  The
    definition follows the newer one, which computes its settings in local
    variables and hands them to the components; [c.IsSecure()] is
    [config.UseTLS], the TLS configuration being created exactly then. *)

Definition createAgent (config : AgentConfig) : agentSetup :=
  let kvConnectTimeout := orDefault (7000 * Millisecond) (KVConnectTimeout config) in
  let serverWaitTimeout := 5 * Second in
  let kvPoolSize := orDefault 1 (KvPoolSize config) in
  let maxQueueSize := orDefault 2048 (MaxQueueSize config) in
  let confHTTPRetryDelay := orDefault (10 * Second) (HTTPRetryDelay config) in
  let confCccpMaxWait := orDefault (3 * Second) (CccpMaxWait config) in
  let confCccpPollPeriod := orDefault (2500 * Millisecond) (CccpPollPeriod config) in
  let '(authMechanisms, warnings) := defaultAuthMechanisms config in
  let httpEpList :=
    (fun hostPort => if negb (UseTLS config) then "http://" +:+ hostPort
                     else "https://" +:+ hostPort) <$> HTTPAddrs config in
  let cfg := {| kvServerList := MemdAddrs config; mgmtEpList := httpEpList; revID := -1 |} in
  {| kvConnectTimeout := kvConnectTimeout;
     serverWaitTimeout := serverWaitTimeout;
     kvPoolSize := kvPoolSize;
     maxQueueSize := maxQueueSize;
     confHTTPRetryDelay := confHTTPRetryDelay;
     confCccpMaxWait := confCccpMaxWait;
     confCccpPollPeriod := confCccpPollPeriod;
     authMechanisms := authMechanisms;
     warnings := warnings;
     httpEpList := httpEpList;
     httpMuxRoute := cfg;
     kvMuxRoute := cfg |}.

(** The poll periods written in the [Agent] literal of the older
    [createAgent] body of the file. *)
Record agentPeriods : Type := mkPeriods {
  litHttpRetryDelay : Z;
  litHttpRedialPeriod : Z;
  litCccpMaxWait : Z;
  litCccpPollPeriod : Z
}.

Definition agentLiteral : agentPeriods :=
  {| litHttpRetryDelay := 10 * Second;
     litHttpRedialPeriod := 10 * Second;
     litCccpMaxWait := 3 * Second;
     litCccpPollPeriod := 2500 * Millisecond |}.

(** [Agent.HasSeenConfig], given what [agent.kvMux.ConfigRev()] returned. *)
Definition HasSeenConfig (configRev : Z * option error) : bool * option error :=
  let '(seen, err) := configRev in
  match err with
  | Some e => (false, Some e)
  | None => (-1 <? seen, None)
  end.

(** ** [AgentConfig.FromConnStr] *)

(** The resolved connection string: the result of [gocbconnstr.Parse] and
    [gocbconnstr.Resolve], which belong to another package.  [Options] maps
    an option name to its values in the order they were written. *)
Record Address : Type := mkAddress {
  Host : string;
  Port : Z
}.

Record ConnSpec : Type := mkSpec {
  Options : gmap string (list string);
  HttpHosts : list Address;
  MemdHosts : list Address;
  UseSsl : bool
}.

(** The closure [fetchOption] of [FromConnStr]. *)
Definition fetchOption (spec : ConnSpec) (name : string) : string * bool :=
  let optValue := default [] (Options spec !! name) in
  match last optValue with
  | None => ("", false)
  | Some v => (v, true)
  end.

(** [fmt.Sprintf("%s:%d", specHost.Host, specHost.Port)] *)
Definition hostPort (a : Address) : string := Host a +:+ ":" +:+ pretty (Port a).

(** The certificate paths that the TLS branch of [FromConnStr] collects. *)
Record tlsPaths : Type := mkTlsPaths {
  certpath : string;
  keypath : string;
  cacertpaths : list string
}.

Record connConfig : Type := mkConnConfig {
  cfgMemdAddrs : list string;
  cfgHttpAddrs : list string;
  cfgTls : option tlsPaths
}.

(** The branch [if spec.UseSsl] up to the creation of the [tls.Config],
    where the text of the function at hand stops. *)
Definition sslPaths (spec : ConnSpec) : option tlsPaths :=
  if UseSsl spec then
    if (0 <? length (default [] (Options spec !! "cacertpath")))%nat
       || (0 <? length (default [] (Options spec !! "keypath")))%nat
    then Some {| cacertpaths := default [] (Options spec !! "cacertpath");
                 certpath := (fetchOption spec "certpath").1;
                 keypath := (fetchOption spec "keypath").1 |}
    else Some {| cacertpaths := default [] (Options spec !! "certpath");
                 certpath := ""; keypath := "" |}
  else None.

(** [FromConnStr] from the resolved specification on: the error it
    returns from the [bootstrap_on] switch, or the two host lists it stores
    in the configuration and the certificate paths it collects. *)
Definition FromConnStr (spec : ConnSpec) : error + connConfig :=
  let httpHosts := hostPort <$> HttpHosts spec in
  let memdHosts := hostPort <$> MemdHosts spec in
  let val := (fetchOption spec "bootstrap_on").1 in
  let continue (memdHosts httpHosts : list string) : error + connConfig :=
    inr {| cfgMemdAddrs := memdHosts; cfgHttpAddrs := httpHosts; cfgTls := sslPaths spec |} in
  if String.eqb val "http" then
    if (length httpHosts =? 0)%nat
    then inl (ErrOther "bootstrap_on=http but no HTTP hosts in connection string")
    else continue [] httpHosts
  else if String.eqb val "cccp" then
    if (length memdHosts =? 0)%nat
    then inl (ErrOther "bootstrap_on=cccp but no CCCP/Memcached hosts in connection string")
    else continue memdHosts []
  else if String.eqb val "both" then continue memdHosts httpHosts
  else if String.eqb val "" then continue memdHosts httpHosts
  else inl (ErrOther "bootstrap_on={http,cccp,both}").

(** ** The redirect policy of the HTTP client *)

(** An [http.Request] as far as the policy reads and writes it: its header,
    a map from canonical key to values. *)
Record Request : Type := mkHttpRequest {
  Header : gmap string (list string)
}.

Definition Header_Get (h : gmap string (list string)) (key : string) : string :=
  match h !! key with
  | Some (v :: _) => v
  | _ => ""
  end.

Definition Header_Set (h : gmap string (list string)) (key value : string)
    : gmap string (list string) :=
  <[key := [value]]> h.

(** The [CheckRedirect] closure of [createHTTPClient]: the request after
    the call and the error returned; [None] when [via[0]] panics. *)
Definition CheckRedirect (req : Request) (via : list Request) : option (Request * option error) :=
  if (10 <=? length via)%nat then Some (req, Some (ErrOther "stopped after 10 redirects"))
  else
    oldest ← via !! 0%nat;
    let auth := Header_Get (Header oldest) "Authorization" in
    if negb (String.eqb auth "")
    then Some ({| Header := Header_Set (Header req) "Authorization" auth |}, None)
    else Some (req, None).

(** The same closure as written in the [http.Client] literal of the older
    [createAgent] body. *)
Definition createAgent_CheckRedirect (req : Request) (via : list Request)
    : option (Request * option error) :=
  if (10 <=? length via)%nat then Some (req, Some (ErrOther "stopped after 10 redirects"))
  else
    oldest ← via !! 0%nat;
    let auth := Header_Get (Header oldest) "Authorization" in
    if negb (String.eqb auth "")
    then Some ({| Header := Header_Set (Header req) "Authorization" auth |}, None)
    else Some (req, None).

(** ** [Agent.connect] *)

Section Connect.
(** The collaborators of [connect] that live outside the files at hand. *)
Context {memdClient bucket : Type}.
Variable isAccessError : option error -> bool.
Variable dialMemdClient : string -> memdClient + error.
Variable ExecCccpRequest : memdClient -> Z -> list byte + error.
Variable hostFromHostPort : string -> string + error.
Variable parseConfig : list byte -> string -> bucket + error.
Variable supportsCccp : bucket -> bool.
Variable buildFirstRouteConfig : bucket -> string -> routeConfig.
Variable IsValid : routeConfig -> bool.

(** How the loop over [memdAddrs] leaves off: by [return err], by reaching
    "Successfully connected" for an endpoint, or by running out of
    endpoints or [break]ing. *)
Inductive connectOutcome : Type :=
| ReturnErr (err : option error)
| Connected (thisHostPort : string) (routeCfg : routeConfig)
| LoopEnded.

(** [connect] over [memdAddrs]; the second component lists the endpoints
    whose client was closed by [disconnectClient], in order.  [now] stands
    for [time.Now()], read once for each endpoint and used for nothing but
    the deadline given to [ExecCccpRequest]. *)
Fixpoint connect (serverConnectTimeout now deadline : Z) (memdAddrs : list string)
    : connectOutcome * list string :=
  match memdAddrs with
  | [] => (LoopEnded, [])
  | thisHostPort :: rest =>
      let srvDeadlineTm := Z.min (now + serverConnectTimeout) deadline in
      let continue := connect serverConnectTimeout now deadline rest in
      let disconnectAnd (k : connectOutcome * list string) := (k.1, thisHostPort :: k.2) in
      let dialed := dialMemdClient thisHostPort in
      let err := match dialed with inl _ => None | inr e => Some e end in
      if isAccessError err then (ReturnErr err, [])
      else match dialed with
      | inr _ => continue
      | inl client =>
          match ExecCccpRequest client srvDeadlineTm with
          | inr _ => disconnectAnd continue
          | inl cccpBytes =>
              match hostFromHostPort thisHostPort with
              | inr _ => disconnectAnd continue
              | inl hostName =>
                  match parseConfig cccpBytes hostName with
                  | inr _ => disconnectAnd continue
                  | inl bk =>
                      if negb (supportsCccp bk) then disconnectAnd (LoopEnded, [])
                      else
                        let routeCfg := buildFirstRouteConfig bk thisHostPort in
                        if negb (IsValid routeCfg) then disconnectAnd continue
                        else (Connected thisHostPort routeCfg, [])
                  end
              end
          end
      end
  end.
End Connect.

Section ConnectSteps.
Context {memdClient bucket : Type}.
Variable dialMemdClient : string -> memdClient + error.
Variable ExecCccpRequest : memdClient -> Z -> list byte + error.
Variable hostFromHostPort : string -> string + error.
Variable parseConfig : list byte -> string -> bucket + error.
Variable supportsCccp : bucket -> bool.
Variable buildFirstRouteConfig : bucket -> string -> routeConfig.
Variable IsValid : routeConfig -> bool.
Variables serverConnectTimeout now deadline : Z.

(** The error, if any, that dialling an endpoint leaves in [err]. *)
Definition dialError (thisHostPort : string) : option error :=
  match dialMemdClient thisHostPort with
  | inl _ => None
  | inr e => Some e
  end.

(** An endpoint passes every step of the loop body of [connect] and
    yields [routeCfg]. *)
Definition bootstraps (thisHostPort : string) (routeCfg : routeConfig) : Prop :=
  exists client cccpBytes hostName bk,
    dialMemdClient thisHostPort = inl client /\
    ExecCccpRequest client (Z.min (now + serverConnectTimeout) deadline) = inl cccpBytes /\
    hostFromHostPort thisHostPort = inl hostName /\
    parseConfig cccpBytes hostName = inl bk /\
    supportsCccp bk = true /\
    routeCfg = buildFirstRouteConfig bk thisHostPort /\
    IsValid routeCfg = true.
End ConnectSteps.

(** ** The error types of the package *)

Module Errors.

(** A field of a struct declaration: its name, its Go type and the key of
    its [json] tag. *)
Record Field : Type := mkField {
  fieldName : string;
  fieldType : string;
  jsonKey : string
}.

Inductive ErrorType : Type :=
| KeyValueError
| ViewError
| N1QLError
| AnalyticsError
| SearchError
| HTTPError.

Definition allErrorTypes : list ErrorType :=
  [KeyValueError; ViewError; N1QLError; AnalyticsError; SearchError; HTTPError].

(** The struct declarations, field by field. *)
Definition fields (t : ErrorType) : list Field :=
  match t with
  | KeyValueError =>
      [ mkField "InnerError" "error" "-";
        mkField "StatusCode" "StatusCode" "status_code";
        mkField "BucketName" "string" "bucket";
        mkField "ScopeName" "string" "scope";
        mkField "CollectionName" "string" "collection";
        mkField "CollectionID" "uint32" "collection_id";
        mkField "ErrorName" "string" "error_name";
        mkField "ErrorDescription" "string" "error_description";
        mkField "Opaque" "uint32" "opaque";
        mkField "Context" "string" "context";
        mkField "Ref" "string" "ref";
        mkField "RetryReasons" "[]RetryReason" "retry_reasons";
        mkField "RetryAttempts" "uint32" "retry_attempts" ]
  | ViewError =>
      [ mkField "InnerError" "error" "-";
        mkField "DesignDocumentName" "string" "design_document_name";
        mkField "ViewName" "string" "view_name";
        mkField "Errors" "[]ViewQueryErrorDesc" "errors";
        mkField "Endpoint" "string" "endpoint";
        mkField "RetryReasons" "[]RetryReason" "retry_reasons";
        mkField "RetryAttempts" "uint32" "retry_attempts" ]
  | N1QLError =>
      [ mkField "InnerError" "error" "-";
        mkField "Statement" "string" "statement";
        mkField "ClientContextID" "string" "client_context_id";
        mkField "Errors" "[]N1QLErrorDesc" "errors";
        mkField "Endpoint" "string" "endpoint";
        mkField "RetryReasons" "[]RetryReason" "retry_reasons";
        mkField "RetryAttempts" "uint32" "retry_attempts" ]
  | AnalyticsError =>
      [ mkField "InnerError" "error" "-";
        mkField "Statement" "string" "statement";
        mkField "ClientContextID" "string" "client_context_id";
        mkField "Errors" "[]AnalyticsErrorDesc" "errors";
        mkField "Endpoint" "string" "endpoint";
        mkField "RetryReasons" "[]RetryReason" "retry_reasons";
        mkField "RetryAttempts" "uint32" "retry_attempts" ]
  | SearchError =>
      [ mkField "InnerError" "error" "-";
        mkField "IndexName" "string" "index_name";
        mkField "Query" "interface{}" "query";
        mkField "ErrorText" "string" "error_text";
        mkField "HTTPResponseCode" "int" "status_code";
        mkField "Endpoint" "string" "endpoint";
        mkField "RetryReasons" "[]RetryReason" "retry_reasons";
        mkField "RetryAttempts" "uint32" "retry_attempts" ]
  | HTTPError =>
      [ mkField "InnerError" "error" "-";
        mkField "UniqueID" "string" "unique_id";
        mkField "Endpoint" "string" "endpoint";
        mkField "RetryReasons" "[]RetryReason" "retry_reasons";
        mkField "RetryAttempts" "uint32" "retry_attempts" ]
  end.

(** The error type declares a field of that name and type. *)
Definition carries (t : ErrorType) (name type : string) : bool :=
  existsb (fun f => String.eqb (fieldName f) name && String.eqb (fieldType f) type) (fields t).

Definition hasField (t : ErrorType) (name : string) : bool :=
  existsb (fun f => String.eqb (fieldName f) name) (fields t).

End Errors.

(** ** Layout of the multi-operation values

    What the second loop of [SubDocLookup] and of [SubDocMutate] writes for
    one operation: operation byte, flags byte, 16-bit path length, for a
    mutation the 32-bit value length, then the path and, for a mutation,
    the value. *)

Definition be32Bytes (v : Z) : list byte :=
  [Bytes.u8 (v / 2 ^ 24); Bytes.u8 (v / 2 ^ 16); Bytes.u8 (v / 2 ^ 8); Bytes.u8 v].

Definition be64Bytes (v : Z) : list byte :=
  [Bytes.u8 (v / 2 ^ 56); Bytes.u8 (v / 2 ^ 48); Bytes.u8 (v / 2 ^ 40); Bytes.u8 (v / 2 ^ 32);
   Bytes.u8 (v / 2 ^ 24); Bytes.u8 (v / 2 ^ 16); Bytes.u8 (v / 2 ^ 8); Bytes.u8 v].

Definition lookupSpec (op : SubDocOp) : list byte :=
  let pathBytes := list_byte_of_string (Path op) in
  [Op op; Flags op] ++ pathLenBytes pathBytes ++ pathBytes.

Definition lookupValue (ops : list SubDocOp) : list byte :=
  concat (lookupSpec <$> ops).

Definition mutateSpec (op : SubDocOp) : list byte :=
  let pathBytes := list_byte_of_string (Path op) in
  let opValue := default [] (OpValue op) in
  [Op op; Flags op] ++ pathLenBytes pathBytes
  ++ be32Bytes (uint32 (Z.of_nat (length opValue))) ++ pathBytes ++ opValue.

Definition mutateValue (ops : list SubDocOp) : list byte :=
  concat (mutateSpec <$> ops).

(** The body of a multi-mutation response as the handler reads it on
    success: for each entry the operation index, the 16-bit status and, for
    status success only, a 32-bit length and that many bytes of value.  An
    entry is (index, status, value). *)
Definition mutateEntryBytes `{MemdConstants} (entry : Z * Z * list byte) : list byte :=
  let '(opIndex, status, value) := entry in
  [Bytes.u8 opIndex] ++ [Bytes.u8 (status / 2 ^ 8); Bytes.u8 status]
  ++ (if status =? StatusSuccess then be32Bytes (Z.of_nat (length value)) ++ value else []).

Definition mutateBody `{MemdConstants} (entries : list (Z * Z * list byte)) : list byte :=
  concat (mutateEntryBytes <$> entries).

(** What an entry does to the results: the status of the operation it
    names is replaced, its value too when the status is success. *)
Definition applyMutateEntry `{MemdConstants} (results : list SubDocResult)
    (entry : Z * Z * list byte) : list SubDocResult :=
  let '(opIndex, status, value) := entry in
  match results !! Z.to_nat opIndex with
  | Some old =>
      <[Z.to_nat opIndex :=
          {| ResErr := getMemdError status;
             ResValue := if status =? StatusSuccess then value else ResValue old |}]> results
  | None => results
  end.

Definition mutateEntryInRange (nops : nat) (entry : Z * Z * list byte) : Prop :=
  let '(opIndex, status, value) := entry in
  0 <= opIndex < Z.of_nat nops /\ opIndex < 256 /\ 0 <= status < 2 ^ 16
  /\ Z.of_nat (length value) < 2 ^ 32.

(** ** The DCP sizes of the older [createAgent] body

    Go's [int] is taken 64 bits wide: [int64] wraps a sum around, and [/]
    on [int] is the quotient truncated towards zero.  Both sides of the
    merge conflict around these lines compute the queue size alike. *)

Definition int64 (z : Z) : Z := (z + 2 ^ 63) mod 2 ^ 64 - 2 ^ 63.

Definition dcpBufferSize (configDcpBufferSize : Z) : Z :=
  if 0 <? configDcpBufferSize then configDcpBufferSize else 8 * 1024 * 1024.

Definition dcpQueueSize (configDcpBufferSize : Z) : Z :=
  Z.quot (int64 (dcpBufferSize configDcpBufferSize + 23)) 24.

(** ** [makeDefaultAuthHandler] *)

Record UserPassPair : Type := mkCreds {
  Username : string;
  Password : string
}.

(** The calls the handler makes on the client, in order. *)
Inductive authStep : Type :=
| CallSaslAuthPlain (username password : string)
| CallExecSelectBucket (bucketName : list byte).

Section AuthHandler.
(** What the handler calls, each given by what it returns. *)
Variable getKvAuthCreds : string -> UserPassPair + error.
Variable SaslAuthPlain : string -> string -> option error.
Variable supportsSelectBucket : bool.
Variable ExecSelectBucket : list byte -> option error.

(** The [AuthFunc] that [makeDefaultAuthHandler] returns, run on a client
    at [address]: the calls made and the error returned. *)
Definition makeDefaultAuthHandler (bucketName : string) (address : string)
    : list authStep * option error :=
  match getKvAuthCreds address with
  | inr err => ([], Some err)
  | inl creds =>
      let authenticated :=
        if negb (String.eqb (Username creds) "") || negb (String.eqb (Password creds) "")
        then ([CallSaslAuthPlain (Username creds) (Password creds)],
              SaslAuthPlain (Username creds) (Password creds))
        else ([], None) in
      match authenticated.2 with
      | Some err => (authenticated.1, Some err)
      | None =>
          if supportsSelectBucket
          then (authenticated.1 ++ [CallExecSelectBucket (list_byte_of_string bucketName)],
                ExecSelectBucket (list_byte_of_string bucketName))
          else (authenticated.1, None)
      end
  end.
End AuthHandler.

(** ** Wrapping errors

    An error value is a sentinel made by [errors.New], known by the variable
    that holds it, or one of the wrapping structs of the package around an
    inner error that may be nil. *)

Record KeyValueInfo : Type := mkKeyValueInfo {
  kvBucketName : string;
  kvScopeName : string;
  kvCollectionName : string;
  kvCollectionID : Z;
  kvErrorName : string;
  kvErrorDescription : string;
  kvOpaque : Z;
  kvContext : string;
  kvRef : string;
  kvRetryReasons : list string;
  kvRetryAttempts : Z
}.

Inductive goError : Type :=
| Sentinel (variable text : string)
| wrappedError (Message : string) (InnerError : option goError)
| SubDocumentError (InnerError : option goError) (Index : Z)
| KeyValueError (InnerError : option goError) (StatusCode : Z) (info : KeyValueInfo)
| ncError (InnerError : option goError).



Section ErrorText.
(** [serializeError] rests on [encoding/json]. *)
Variable serializeError : goError -> string.

End ErrorText.

(** [errors.As(err, &kvErr)] for a target of type [KeyValueError]: the
    first error of that type on the chain of [Unwrap]. *)
Fixpoint asKeyValueError (e : goError) : option (Z * KeyValueInfo) :=
  match e with
  | Sentinel _ _ => None
  | wrappedError _ inner => inner ≫= asKeyValueError
  | SubDocumentError inner _ => inner ≫= asKeyValueError
  | KeyValueError _ StatusCode info => Some (StatusCode, info)
  | ncError inner => inner ≫= asKeyValueError
  end.

Definition isErrorStatus (err : option goError) (code : Z) : bool :=
  match err ≫= asKeyValueError with
  | Some (StatusCode, _) => StatusCode =? code
  | None => false
  end.

(** One layer of the wrapping structs that are no [KeyValueError]. *)
Inductive plainLayer : goError -> goError -> Prop :=
| layer_wrapped message inner : plainLayer (wrappedError message (Some inner)) inner
| layer_subdoc inner index : plainLayer (SubDocumentError (Some inner) index) inner
| layer_nc inner : plainLayer (ncError (Some inner)) inner.

(** [outer] is [inner] under any number of such layers. *)
Inductive wraps : goError -> goError -> Prop :=
| wraps_here e : wraps e e
| wraps_layer outer mid inner : plainLayer outer mid -> wraps mid inner -> wraps outer inner.

(** No [KeyValueError] on the chain of [Unwrap]. *)
Fixpoint noKeyValueError (e : goError) : Prop :=
  match e with
  | Sentinel _ _ => True
  | wrappedError _ inner | SubDocumentError inner _ | ncError inner =>
      match inner with Some e' => noKeyValueError e' | None => True end
  | KeyValueError _ _ _ => False
  end.


(** ** Sample inputs

    Two lookups, a response frame with a given body, and an agent
    configuration, on which the properties below are evaluated. *)

Definition lookupTwo : list SubDocOp :=
  [ {| Op := xc5; Flags := x00; Path := "a"; OpValue := None |};
    {| Op := xc5; Flags := x00; Path := "b"; OpValue := None |} ].

Definition responseWith (body : list byte) : memdPacket :=
  {| Magic := x81; Opcode := xd0; Datatype := 0; Vbucket := 0; Cas := 9;
     Extras := []; Key := []; Value := body |}.

Definition plainConfig (tls : bool) (mechs : list AuthMechanism) : AgentConfig :=
  {| MemdAddrs := ["10.0.0.1:11210"]; HTTPAddrs := ["10.0.0.1:8091"];
     BucketName := "default"; UseTLS := tls; AuthMechanisms := mechs;
     KVConnectTimeout := 0; KvPoolSize := 0; MaxQueueSize := 0;
     HTTPRetryDelay := 0; CccpMaxWait := 0; CccpPollPeriod := 4 * Second |}.

(** The connection string in which every option is written once, with
    the value of its last occurrence: what [spec] amounts to if, for each
    option, the last occurrence wins. *)
Definition lastOccurrences (spec : ConnSpec) : ConnSpec :=
  {| Options := (fun optValue => match last optValue with
                                 | Some v => [v]
                                 | None => []
                                 end) <$> Options spec;
     HttpHosts := HttpHosts spec;
     MemdHosts := MemdHosts spec;
     UseSsl := UseSsl spec |}.

(** A resolved [couchbases://] connection string that writes each of the
    certificate options twice. *)
Definition sampleCertSpec : ConnSpec :=
  {| Options := {[ "cacertpath" := ["ca1.pem"; "ca2.pem"];
                   "certpath" := ["c1.pem"; "c2.pem"];
                   "keypath" := ["k1.pem"; "k2.pem"] ]};
     HttpHosts := [ {| Host := "h1"; Port := 18091 |} ];
     MemdHosts := [ {| Host := "h1"; Port := 11207 |} ];
     UseSsl := true |}.

(** A path of [n] characters, a store with an expiry, an empty result and
    a response frame that carries a mutation token. *)
Fixpoint longPath (n : nat) : string :=
  match n with
  | O => ""
  | S n => String "a" (longPath n)
  end.

Definition mutateTwo : list SubDocOp :=
  [ {| Op := xc8; Flags := x00; Path := "a"; OpValue := Some [x31] |};
    {| Op := xc9; Flags := x00; Path := "bc"; OpValue := None |} ].

Definition noResult : SubDocResult := {| ResErr := None; ResValue := [] |}.

Definition tokenResponse (rest : list byte) : memdPacket :=
  {| Magic := x81; Opcode := xc8; Datatype := 0; Vbucket := 0; Cas := 9;
     Extras := be64Bytes 258 ++ be64Bytes 3 ++ rest; Key := []; Value := [] |}.

Definition requestOn (vbucket : Z) : memdPacket :=
  {| Magic := x80; Opcode := xc8; Datatype := 0; Vbucket := vbucket; Cas := 0;
     Extras := []; Key := []; Value := [] |}.

(** A key-value error for a missing document, as a sub-document operation
    hands it over. *)
Definition sampleKeyValueError : goError :=
  KeyValueError (Some (Sentinel "ErrDocumentNotFound" "document not found")) 1
    {| kvBucketName := "default"; kvScopeName := ""; kvCollectionName := "";
       kvCollectionID := 0; kvErrorName := "KEY_ENOENT"; kvErrorDescription := "";
       kvOpaque := 7; kvContext := ""; kvRef := ""; kvRetryReasons := [];
       kvRetryAttempts := 0 |}.

(** A run of [connect] against a server whose bucket does not support
    CCCP. *)
Definition sampleConnectNoCccp (memdAddrs : list string) : connectOutcome * list string :=
  connect (memdClient := unit) (bucket := unit)
    (fun _ => false) (fun _ => inl tt)
    (fun _ _ => inl []) (fun hp => inl hp) (fun _ _ => inl tt) (fun _ => false)
    (fun _ hp => {| kvServerList := [hp]; mgmtEpList := []; revID := 1 |}) (fun _ => true)
    (7000 * Millisecond) 0 (60 * Second) memdAddrs.

(** Collaborators for a run of [connect]: a dial that is refused at
    ["a:11210"], denied at ["b:11210"] and succeeds elsewhere. *)
Definition sampleDial (thisHostPort : string) : unit + error :=
  if String.eqb thisHostPort "a:11210" then inr (ErrOther "connection refused")
  else if String.eqb thisHostPort "b:11210" then inr (ErrOther "access denied")
  else inl tt.

Definition sampleIsAccessError (err : option error) : bool :=
  match err with
  | Some (ErrOther description) => String.eqb description "access denied"
  | _ => false
  end.

Definition sampleConnect (memdAddrs : list string) : connectOutcome * list string :=
  connect (memdClient := unit) (bucket := unit)
    sampleIsAccessError sampleDial
    (fun _ _ => inl []) (fun hp => inl hp) (fun _ _ => inl tt) (fun _ => true)
    (fun _ hp => {| kvServerList := [hp]; mgmtEpList := []; revID := 1 |}) (fun _ => true)
    (7000 * Millisecond) 0 (60 * Second) memdAddrs.

(** A resolved connection string with the option [bootstrap_on] written
    several times. *)
Definition sampleSpec (values : list string) : ConnSpec :=
  {| Options := {[ "bootstrap_on" := values ]};
     HttpHosts := [ {| Host := "h1"; Port := 8091 |} ];
     MemdHosts := [];
     UseSsl := false |}.

(** A resolved [couchbases://] connection string that names two CA
    certificates. *)
Definition sampleTlsSpec : ConnSpec :=
  {| Options := {[ "cacertpath" := ["ca1.pem"; "ca2.pem"] ]};
     HttpHosts := [ {| Host := "h1"; Port := 18091 |} ];
     MemdHosts := [ {| Host := "h1"; Port := 11207 |} ];
     UseSsl := true |}.

Definition requestWith (auth : list string) : Request :=
  {| Header := {[ "Authorization" := auth ]} |}.

(** * Properties *)

(** ** Big-endian coding *)

Section ByteFacts.
Import Bytes.

Lemma byteZ_u8 (z : Z) : byteZ (u8 z) = z mod 256.
Proof.
  unfold byteZ, u8.
  assert (Hr : 0 <= z mod 256 < 256) by (apply Z.mod_pos_bound; lia).
  destruct (Byte.of_N (Z.to_N (z mod 256))) as [b|] eqn:E.
  - apply Byte.to_of_N in E. rewrite E. lia.
  - apply Byte.of_N_None_iff in E. lia.
Qed.

Lemma byteZ_range (b : byte) : 0 <= byteZ b < 256.
Proof.
  unfold byteZ. pose proof (Byte.to_N_bounded b). lia.
Qed.

Lemma be16_value (v : Z) :
  byteZ (u8 (v / 2 ^ 8)) * 2 ^ 8 + byteZ (u8 v) = v mod 2 ^ 16.
Proof.
  rewrite !byteZ_u8.
  change (2 ^ 16) with (256 * 256). change (2 ^ 8) with 256.
  rewrite Z.rem_mul_r by lia. lia.
Qed.

Lemma be32_value (v : Z) :
  byteZ (u8 (v / 2 ^ 24)) * 2 ^ 24 + byteZ (u8 (v / 2 ^ 16)) * 2 ^ 16
    + byteZ (u8 (v / 2 ^ 8)) * 2 ^ 8 + byteZ (u8 v) = v mod 2 ^ 32.
Proof.
  rewrite !byteZ_u8.
  change (2 ^ 32) with (256 * (256 * (256 * 256))).
  change (2 ^ 24) with (256 * 256 * 256). change (2 ^ 16) with (256 * 256).
  change (2 ^ 8) with 256.
  rewrite !Z.rem_mul_r by lia.
  rewrite <- !Z.div_div by lia. lia.
Qed.

(** Copying over a region of the same length replaces exactly it. *)
Lemma copy_exact (pre old suf src : list byte) :
  length old = length src ->
  copy (pre ++ old ++ suf) (length pre) src = Some (pre ++ src ++ suf).
Proof.
  intros Hlen. unfold copy.
  rewrite !length_app.
  destruct (length pre <=? length pre + (length old + length suf))%nat eqn:E;
    [| apply Nat.leb_gt in E; lia].
  rewrite take_app_length.
  rewrite (take_ge src) by lia.
  rewrite drop_app_add.
  by rewrite (drop_app_length' old suf (length src)).
Qed.

Lemma copy_path (p : list byte) (n : nat) :
  copy (make (length p + n)) 0 p = Some (p ++ make n).
Proof.
  unfold make. rewrite replicate_add.
  apply (copy_exact [] (replicate (length p) x00) (replicate n x00) p).
  by rewrite length_replicate.
Qed.

Lemma copy_value (p v : list byte) :
  copy (p ++ make (length v)) (length p) v = Some (p ++ v).
Proof.
  pose proof (copy_exact p (make (length v)) [] v) as Hc.
  rewrite !app_nil_r in Hc. apply Hc. unfold make. by rewrite length_replicate.
Qed.

End ByteFacts.


(** ** Single-path operations: the request frame *)

Section SinglePath.
Context `{MemdConstants}.
Import Bytes.

Lemma subdocExtras_bytes (pathBytes : list byte) (expiry : Z) :
  subdocExtras pathBytes expiry = Some (pathLenBytes pathBytes ++ [x00] ++ expiryBytes expiry).
Proof.
  unfold subdocExtras, expiryBytes, pathLenBytes.
  destruct (expiry =? 0); reflexivity.
Qed.

Lemma shortExtras_bytes (pathBytes : list byte) :
  (PutUint16 (make 3) 0 (uint16 (Z.of_nat (length pathBytes))) ≫= fun b => store b 2 x00)
  = Some (pathLenBytes pathBytes ++ [x00]).
Proof. reflexivity. Qed.

Lemma uint16_idem (z : Z) : uint16 z mod 2 ^ 16 = uint16 z.
Proof. unfold uint16. apply Z.mod_mod. lia. Qed.

Lemma pathLen_decodes (pathBytes rest : list byte) :
  Uint16 (pathLenBytes pathBytes ++ rest) = Some (uint16 (Z.of_nat (length pathBytes))).
Proof.
  unfold pathLenBytes. cbn [app Uint16].
  by rewrite be16_value, uint16_idem.
Qed.

Lemma expiry_decodes (expiry : Z) :
  0 <= expiry < 2 ^ 32 -> expiry <> 0 -> Uint32 (expiryBytes expiry) = Some expiry.
Proof.
  intros Hrange Hne. unfold expiryBytes.
  destruct (expiry =? 0) eqn:E; [apply Z.eqb_eq in E; lia |].
  cbn [Uint32]. rewrite be32_value. f_equal. apply Z.mod_small. lia.
Qed.

Lemma expiryBytes_length (expiry : Z) :
  length (expiryBytes expiry) = if expiry =? 0 then 0%nat else 4%nat.
Proof. unfold expiryBytes. by destruct (expiry =? 0). Qed.

Lemma storeIn_family (key : list byte) (path : string) (value : list byte)
    (createParents : bool) (cas expiry : Z) :
  SetIn key path value createParents cas expiry
    = storeIn CmdSubDocDictSet key path value createParents cas expiry /\
  AddIn key path value createParents cas expiry
    = storeIn CmdSubDocDictAdd key path value createParents cas expiry /\
  ReplaceIn key path value cas expiry
    = storeIn CmdSubDocReplace key path value false cas expiry /\
  PushFrontIn key path value createParents cas expiry
    = storeIn CmdSubDocArrayPushFirst key path value createParents cas expiry /\
  PushBackIn key path value createParents cas expiry
    = storeIn CmdSubDocArrayPushLast key path value createParents cas expiry /\
  ArrayInsertIn key path value cas expiry
    = storeIn CmdSubDocArrayInsert key path value false cas expiry /\
  AddUniqueIn key path value createParents cas expiry
    = storeIn CmdSubDocArrayAddUnique key path value createParents cas expiry.
Proof. repeat split. Qed.

(** C9, as the code has it.  Every single-path operation hands
    [dispatchOp] a request whose
    extras are three bytes (seven when a non-zero expiry is given): bytes 0-1
    are the big-endian 16-bit path length (the length itself below 65536,
    its low 16 bits in general, as [uint16(len(pathBytes))] has it), byte 2
    is zero, and bytes 3-6, when present, are the big-endian expiry.
    [GetIn] and [ExistsIn] take no expiry and always send three bytes.  For
    [storeIn] (hence [SetIn], [AddIn], [ReplaceIn], [PushFrontIn],
    [PushBackIn], [ArrayInsertIn], [AddUniqueIn], see [storeIn_family]) and
    [CounterIn] the value is the path bytes followed by the value bytes. *)
Theorem single_path_frames (key : list byte) (path : string) (value : list byte)
    (opcode : byte) (createParents : bool) (cas expiry : Z) :
  0 <= expiry < 2 ^ 32 ->
  let pathBytes := list_byte_of_string path in
  let pathLen := Z.of_nat (length pathBytes) in
  let layout (e : Z) (extras : list byte) :=
    length extras = (if e =? 0 then 3%nat else 7%nat) /\
    Uint16 (take 2 extras) = Some (pathLen mod 2 ^ 16) /\
    extras !! 2%nat = Some x00 /\
    (e <> 0 -> Uint32 (drop 3 extras) = Some e) in
  (pathLen < 2 ^ 16 -> pathLen mod 2 ^ 16 = pathLen) /\
  (exists req, GetIn key path = Some (Dispatch req) /\
     layout 0 (Extras (packet req)) /\ Value (packet req) = pathBytes) /\
  (exists req, ExistsIn key path = Some (Dispatch req) /\
     layout 0 (Extras (packet req)) /\ Value (packet req) = pathBytes) /\
  (exists req, storeIn opcode key path value createParents cas expiry = Some (Dispatch req) /\
     layout expiry (Extras (packet req)) /\ Value (packet req) = pathBytes ++ value) /\
  (exists req, CounterIn key path value cas expiry = Some (Dispatch req) /\
     layout expiry (Extras (packet req)) /\ Value (packet req) = pathBytes ++ value) /\
  (exists req, RemoveIn key path cas expiry = Some (Dispatch req) /\
     layout expiry (Extras (packet req)) /\ Value (packet req) = pathBytes).
Proof.
  intros Hrange pathBytes pathLen layout.
  assert (Hshort : layout 0 (pathLenBytes pathBytes ++ [x00])).
  { unfold layout. repeat split; try reflexivity; [| lia].
    change (take 2 (pathLenBytes pathBytes ++ [x00])) with (pathLenBytes pathBytes ++ []).
    apply pathLen_decodes. }
  assert (Hlong : layout expiry (pathLenBytes pathBytes ++ [x00] ++ expiryBytes expiry)).
  { unfold layout. split.
    { rewrite !length_app, expiryBytes_length. by destruct (expiry =? 0). }
    split.
    { change (take 2 (pathLenBytes pathBytes ++ [x00] ++ expiryBytes expiry))
        with (pathLenBytes pathBytes ++ []).
      apply pathLen_decodes. }
    split; [reflexivity |].
    intros Hne. change (drop 3 (pathLenBytes pathBytes ++ [x00] ++ expiryBytes expiry))
      with (expiryBytes expiry).
    by apply expiry_decodes. }
  split; [intros Hlt; apply Z.mod_small; lia |].
  split; [eexists; split; [reflexivity | split; [exact Hshort | reflexivity]] |].
  split; [eexists; split; [reflexivity | split; [exact Hshort | reflexivity]] |].
  split.
  { unfold storeIn. fold pathBytes.
    rewrite copy_path. cbn [mbind option_bind]. rewrite copy_value. cbn [mbind option_bind].
    rewrite subdocExtras_bytes. cbn [mbind option_bind].
    eexists; split; [reflexivity | split; [exact Hlong | reflexivity]]. }
  split.
  { unfold CounterIn. fold pathBytes.
    rewrite copy_path. cbn [mbind option_bind]. rewrite copy_value. cbn [mbind option_bind].
    rewrite subdocExtras_bytes. cbn [mbind option_bind].
    eexists; split; [reflexivity | split; [exact Hlong | reflexivity]]. }
  unfold RemoveIn. fold pathBytes.
  rewrite subdocExtras_bytes. cbn [mbind option_bind].
  eexists; split; [reflexivity | split; [exact Hlong | reflexivity]].
Qed.

End SinglePath.

(** ** Multi operations: argument checks *)

Section BufferWrites.
Import Bytes.

Lemma store_ok (b : list byte) (i : nat) (v : byte) :
  (i < length b)%nat -> exists b', store b i v = Some b' /\ length b' = length b.
Proof.
  intros Hi. unfold store. apply Nat.ltb_lt in Hi. rewrite Hi.
  eexists; split; [reflexivity | apply length_insert].
Qed.

Lemma PutUint16_ok (b : list byte) (off : nat) (v : Z) :
  (off + 2 <= length b)%nat -> exists b', PutUint16 b off v = Some b' /\ length b' = length b.
Proof.
  intros Hoff. unfold PutUint16. pose proof Hoff as Hb. apply Nat.leb_le in Hb. rewrite Hb.
  eexists; split; [reflexivity |].
  rewrite !length_app, length_take, length_drop. cbn [length]. lia.
Qed.

Lemma PutUint32_ok (b : list byte) (off : nat) (v : Z) :
  (off + 4 <= length b)%nat -> exists b', PutUint32 b off v = Some b' /\ length b' = length b.
Proof.
  intros Hoff. unfold PutUint32. pose proof Hoff as Hb. apply Nat.leb_le in Hb. rewrite Hb.
  eexists; split; [reflexivity |].
  rewrite !length_app, length_take, length_drop. cbn [length]. lia.
Qed.

Lemma copy_ok (dst : list byte) (off : nat) (src : list byte) :
  (off <= length dst)%nat -> exists b', copy dst off src = Some b' /\ length b' = length dst.
Proof.
  intros Hoff. unfold copy. pose proof Hoff as Hb. apply Nat.leb_le in Hb. rewrite Hb.
  eexists; split; [reflexivity |].
  rewrite !length_app, !length_take, length_drop. lia.
Qed.

End BufferWrites.

Section MultiChecks.
Context `{MemdConstants}.
Import Bytes.

Lemma lookupSize_cons (op : SubDocOp) (rest : list SubDocOp) :
  lookupSize (op :: rest)
  = (4 + length (list_byte_of_string (Path op)) + lookupSize rest)%nat.
Proof. reflexivity. Qed.

Lemma mutateSize_cons (op : SubDocOp) (rest : list SubDocOp) :
  mutateSize (op :: rest)
  = (8 + length (list_byte_of_string (Path op)) + length (default [] (OpValue op))
     + mutateSize rest)%nat.
Proof. reflexivity. Qed.

Lemma pathBytesTotal_sum (ops : list SubDocOp) :
  (length ops * 4 + pathBytesTotal ops = lookupSize ops)%nat.
Proof.
  unfold pathBytesTotal, lookupSize.
  assert (Hgen : forall acc : nat,
    (length ops * 4
      + foldl (fun total op => total + length (list_byte_of_string (Path op))) acc ops
     = acc + sum_list ((fun op => 4 + length (list_byte_of_string (Path op))) <$> ops))%nat).
  { induction ops as [| op rest IH]; intros acc; cbn [foldl length fmap list_fmap sum_list].
    - lia.
    - specialize (IH (acc + length (list_byte_of_string (Path op)))%nat).
      cbn [sum_list] in *. unfold id in *. lia. }
  apply (Hgen 0%nat).
Qed.

Lemma mutateTotal_sum (ops : list SubDocOp) :
  (length ops * 8 + pathBytesTotal ops + valueBytesTotal ops = mutateSize ops)%nat.
Proof.
  unfold pathBytesTotal, valueBytesTotal, mutateSize.
  assert (Hgen : forall a b : nat,
    (length ops * 8
      + foldl (fun total op => total + length (list_byte_of_string (Path op))) a ops
      + foldl (fun total op => total + length (default [] (OpValue op))) b ops
     = a + b + sum_list ((fun op => 8 + length (list_byte_of_string (Path op))
                                      + length (default [] (OpValue op))) <$> ops))%nat).
  { induction ops as [| op rest IH]; intros a b; cbn [foldl length fmap list_fmap sum_list].
    - lia.
    - specialize (IH (a + length (list_byte_of_string (Path op)))%nat
                     (b + length (default [] (OpValue op)))%nat).
      cbn [sum_list] in *. unfold id in *. lia. }
  apply (Hgen 0%nat 0%nat).
Qed.

(** The second loop of [SubDocLookup] never runs out of its buffer: it
    either meets an operation it rejects, or fills the buffer in place. *)
Lemma lookupEncode_total (ops : list SubDocOp) :
  forall (pre : list (list byte)) (valueBuf : list byte) (valueIter : nat),
  (valueIter + lookupSize ops <= length valueBuf)%nat ->
  exists r, lookupEncode (pre ++ pathBytesList ops) ops (length pre) valueBuf valueIter = Some r /\
    match r with
    | inl e => e = ErrInvalidArgs /\ forallb validLookupOp ops = false
    | inr buf' => forallb validLookupOp ops = true /\ length buf' = length valueBuf
    end.
Proof.
  induction ops as [| op rest IH]; intros pre valueBuf valueIter Hfit.
  - eexists; split; [reflexivity | by split].
  - cbn [lookupEncode forallb]. unfold validLookupOp at 1 3.
    rewrite lookupSize_cons in Hfit.
    destruct (Byte.eqb (Op op) SubDocOpGet || Byte.eqb (Op op) SubDocOpExists) eqn:Eop.
    2:{ apply orb_false_elim in Eop as [-> ->]. cbn [negb andb].
        eexists; split; [reflexivity | by split]. }
    replace (negb (Byte.eqb (Op op) SubDocOpGet) && negb (Byte.eqb (Op op) SubDocOpExists))
      with false by (rewrite <- negb_orb, Eop; reflexivity).
    destruct (OpValue op) as [v |].
    { eexists; split; [reflexivity | by split]. }
    change (pathBytesList (op :: rest))
      with (list_byte_of_string (Path op) :: pathBytesList rest).
    rewrite list_lookup_middle by reflexivity.
    cbn [mbind option_bind andb].
    set (pathBytes := list_byte_of_string (Path op)) in *.
    destruct (store_ok valueBuf (valueIter + 0) (Op op)) as (b1 & -> & L1); [lia |].
    cbn [mbind option_bind].
    destruct (store_ok b1 (valueIter + 1) (Flags op)) as (b2 & -> & L2); [lia |].
    cbn [mbind option_bind].
    destruct (PutUint16_ok b2 (valueIter + 2) (uint16 (Z.of_nat (length pathBytes))))
      as (b3 & -> & L3); [lia |].
    cbn [mbind option_bind].
    destruct (copy_ok b3 (valueIter + 4) pathBytes) as (b4 & -> & L4); [lia |].
    cbn [mbind option_bind].
    specialize (IH (pre ++ [pathBytes]) b4 (valueIter + (4 + length pathBytes))%nat).
    rewrite <- app_assoc, length_app in IH. cbn [app length] in IH.
    rewrite Nat.add_1_r in IH.
    destruct IH as (r & -> & Hr); [lia |].
    exists r. split; [reflexivity |].
    destruct r as [e | buf']; [exact Hr |].
    destruct Hr as [Hv Hl]. split; [exact Hv | lia].
Qed.

Lemma isMutationOp_elem (op : byte) : isMutationOp op = true <-> op ∈ mutationOps.
Proof.
  unfold isMutationOp, mutationOps.
  rewrite !orb_true_iff, !elem_of_cons, elem_of_nil.
  split.
  - intros Hop. repeat (destruct Hop as [Hop | Hop]; [| apply Byte.byte_dec_bl in Hop; tauto]).
    apply Byte.byte_dec_bl in Hop; tauto.
  - intros Hop.
    repeat (destruct Hop as [Hop | Hop];
            [apply Byte.byte_dec_lb in Hop; rewrite Hop; tauto |]).
    contradiction.
Qed.

Lemma mutateEncode_total (ops : list SubDocOp) :
  forall (pre : list (list byte)) (valueBuf : list byte) (valueIter : nat),
  (valueIter + mutateSize ops <= length valueBuf)%nat ->
  exists r, mutateEncode (pre ++ pathBytesList ops) ops (length pre) valueBuf valueIter = Some r /\
    match r with
    | inl e => e = ErrInvalidArgs /\ forallb (fun op => isMutationOp (Op op)) ops = false
    | inr buf' => forallb (fun op => isMutationOp (Op op)) ops = true
                  /\ length buf' = length valueBuf
    end.
Proof.
  induction ops as [| op rest IH]; intros pre valueBuf valueIter Hfit.
  - eexists; split; [reflexivity | by split].
  - cbn [mutateEncode forallb].
    rewrite mutateSize_cons in Hfit.
    destruct (isMutationOp (Op op)) eqn:Eop; cbn [negb andb].
    2:{ eexists; split; [reflexivity | by split]. }
    change (pathBytesList (op :: rest))
      with (list_byte_of_string (Path op) :: pathBytesList rest).
    rewrite list_lookup_middle by reflexivity.
    cbn [mbind option_bind].
    set (pathBytes := list_byte_of_string (Path op)) in *.
    set (opValue := default [] (OpValue op)) in *.
    destruct (store_ok valueBuf (valueIter + 0) (Op op)) as (b1 & -> & L1); [lia |].
    cbn [mbind option_bind].
    destruct (store_ok b1 (valueIter + 1) (Flags op)) as (b2 & -> & L2); [lia |].
    cbn [mbind option_bind].
    destruct (PutUint16_ok b2 (valueIter + 2) (uint16 (Z.of_nat (length pathBytes))))
      as (b3 & -> & L3); [lia |].
    cbn [mbind option_bind].
    destruct (PutUint32_ok b3 (valueIter + 4) (uint32 (Z.of_nat (length opValue))))
      as (b4 & -> & L4); [lia |].
    cbn [mbind option_bind].
    destruct (copy_ok b4 (valueIter + 8) pathBytes) as (b5 & -> & L5); [lia |].
    cbn [mbind option_bind].
    destruct (copy_ok b5 (valueIter + 8 + length pathBytes) opValue) as (b6 & -> & L6); [lia |].
    cbn [mbind option_bind].
    specialize (IH (pre ++ [pathBytes]) b6
                   (valueIter + (8 + length pathBytes + length opValue))%nat).
    rewrite <- app_assoc, length_app in IH. cbn [app length] in IH.
    rewrite Nat.add_1_r in IH.
    destruct IH as (r & -> & Hr); [lia |].
    exists r. split; [reflexivity |].
    destruct r as [e | buf']; [exact Hr |].
    destruct Hr as [Hv Hl]. split; [exact Hv | lia].
Qed.

Lemma SubDocLookup_outcome (key : list byte) (ops : list SubDocOp) :
  if forallb validLookupOp ops
  then exists req, SubDocLookup key ops = Some (Dispatch req)
  else SubDocLookup key ops = Some (Return ErrInvalidArgs).
Proof.
  unfold SubDocLookup.
  destruct (lookupEncode_total ops [] (make (length ops * 4 + pathBytesTotal ops)) 0)
    as (r & Hr & Hcase).
  { unfold make. rewrite length_replicate, pathBytesTotal_sum. lia. }
  cbn [app length] in Hr. rewrite Hr. cbn [mbind option_bind].
  destruct r as [e | buf'].
  - destruct Hcase as [-> ->]. reflexivity.
  - destruct Hcase as [-> _]. eexists; reflexivity.
Qed.

Lemma SubDocMutate_outcome (key : list byte) (ops : list SubDocOp) (cas expiry : Z) :
  if forallb (fun op => isMutationOp (Op op)) ops
  then exists req, SubDocMutate key ops cas expiry = Some (Dispatch req)
  else SubDocMutate key ops cas expiry = Some (Return ErrInvalidArgs).
Proof.
  unfold SubDocMutate.
  destruct (mutateEncode_total ops []
              (make (length ops * 8 + pathBytesTotal ops + valueBytesTotal ops)) 0)
    as (r & Hr & Hcase).
  { unfold make. rewrite length_replicate, mutateTotal_sum. lia. }
  cbn [app length] in Hr. rewrite Hr. cbn [mbind option_bind].
  destruct r as [e | buf'].
  - destruct Hcase as [-> ->]. reflexivity.
  - destruct Hcase as [-> _]. destruct (expiry =? 0); eexists; reflexivity.
Qed.

(** C10. [SubDocLookup] returns [ErrInvalidArgs], and hands nothing to
    [dispatchOp], as soon as one of its operations is neither a get nor an
    exists or carries a non-nil value; [SubDocMutate] does so as soon as one
    of its operations is outside the nine mutation operations. *)
Theorem multi_ops_reject_invalid (key : list byte) (ops : list SubDocOp) (cas expiry : Z) :
  ((exists op, op ∈ ops /\
      ((Op op <> SubDocOpGet /\ Op op <> SubDocOpExists) \/ OpValue op <> None)) ->
   SubDocLookup key ops = Some (Return ErrInvalidArgs)) /\
  ((exists op, op ∈ ops /\ Op op ∉ mutationOps) ->
   SubDocMutate key ops cas expiry = Some (Return ErrInvalidArgs)).
Proof.
  split.
  - intros (op & Hin & Hbad).
    pose proof (SubDocLookup_outcome key ops) as Hout.
    destruct (forallb validLookupOp ops) eqn:Eall; [| exact Hout].
    exfalso. rewrite forallb_forall in Eall.
    specialize (Eall op (proj1 (list_elem_of_In _ _) Hin)).
    unfold validLookupOp in Eall. apply andb_true_iff in Eall as [Hop Hval].
    destruct Hbad as [[Hget Hexists] | Hvalue].
    + apply orb_true_iff in Hop as [Hop | Hop]; apply Byte.byte_dec_bl in Hop; congruence.
    + destruct (OpValue op); [discriminate | congruence].
  - intros (op & Hin & Hbad).
    pose proof (SubDocMutate_outcome key ops cas expiry) as Hout.
    destruct (forallb (fun op => isMutationOp (Op op)) ops) eqn:Eall; [| exact Hout].
    exfalso. rewrite forallb_forall in Eall.
    specialize (Eall op (proj1 (list_elem_of_In _ _) Hin)). cbn beta in Eall.
    apply isMutationOp_elem in Eall. contradiction.
Qed.

End MultiChecks.

(** Evaluation of C9 and C10 on concrete frames. *)

Lemma single_path_frames_witness :
  exists req,
    storeIn (H := wireConstants) xc8 [x6b] "a.b" [x31] true 0 5 = Some (Dispatch req) /\
    length (Extras (packet req)) = 7%nat /\
    Value (packet req) = [x61; x2e; x62; x31].
Proof.
  assert (Hrange : 0 <= 5 < 2 ^ 32) by (split; [discriminate | reflexivity]).
  destruct (@single_path_frames wireConstants [x6b] "a.b" [x31] xc8 true 0 5 Hrange)
    as (_ & _ & _ & (req & Hreq & (Hlen & _) & Hval) & _).
  exists req. split; [exact Hreq | split; [exact Hlen | exact Hval]].
Defined.

(** C9 as stated fails: the path of a request is not bounded, and for a
    path of 65536 bytes bytes 0-1 of the extras are zero, not the path
    length. *)
Lemma single_path_length_truncated :
  Z.of_nat (length (list_byte_of_string (longPath (2 ^ 16)))) = 65536 /\
  Extras <$> sentPacket (GetIn (H := wireConstants) [x6b] (longPath (2 ^ 16)))
  = Some [x00; x00; x00] /\
  Extras <$> sentPacket (RemoveIn (H := wireConstants) [x6b] (longPath (2 ^ 16)) 0 5)
  = Some [x00; x00; x00; x00; x00; x00; x05].
Proof. vm_compute. repeat split. Qed.

Example RemoveIn_frame :
  sentPacket (RemoveIn (H := wireConstants) [x6b] "a.b" 7 5)
  = Some {| Magic := x80; Opcode := xc9; Datatype := 0; Vbucket := 0; Cas := 7;
            Extras := [x00; x03; x00; x00; x00; x00; x05];
            Key := [x6b]; Value := [x61; x2e; x62] |}.
Proof. reflexivity. Qed.

Example GetIn_frame :
  sentPacket (GetIn (H := wireConstants) [x6b] "a.b")
  = Some {| Magic := x80; Opcode := xc5; Datatype := 0; Vbucket := 0; Cas := 0;
            Extras := [x00; x03; x00]; Key := [x6b]; Value := [x61; x2e; x62] |}.
Proof. reflexivity. Qed.

Lemma multi_ops_reject_invalid_witness :
  SubDocLookup (H := wireConstants) [x6b]
    [ {| Op := xc5; Flags := x00; Path := "a"; OpValue := None |};
      {| Op := xc8; Flags := x00; Path := "b"; OpValue := None |} ]
  = Some (Return ErrInvalidArgs).
Proof.
  apply (proj1 (@multi_ops_reject_invalid wireConstants [x6b] _ 0 0)).
  exists {| Op := xc8; Flags := x00; Path := "b"; OpValue := None |}.
  split; [apply list_elem_of_In; right; left; reflexivity |].
  left. split; discriminate.
Defined.

Example SubDocLookup_frame :
  sentPacket (SubDocLookup (H := wireConstants) [x6b]
    [ {| Op := xc5; Flags := x00; Path := "a"; OpValue := None |};
      {| Op := xc6; Flags := x00; Path := "bc"; OpValue := None |} ])
  = Some {| Magic := x80; Opcode := xd0; Datatype := 0; Vbucket := 0; Cas := 0;
            Extras := []; Key := [x6b];
            Value := [xc5; x00; x00; x01; x61; xc6; x00; x00; x02; x62; x63] |}.
Proof. reflexivity. Qed.

Example SubDocLookup_nonnil_value :
  SubDocLookup (H := wireConstants) [x6b]
    [ {| Op := xc5; Flags := x00; Path := "a"; OpValue := Some [] |} ]
  = Some (Return ErrInvalidArgs).
Proof. reflexivity. Qed.

Example SubDocMutate_frame :
  sentPacket (SubDocMutate (H := wireConstants) [x6b]
    [ {| Op := xc8; Flags := x01; Path := "a"; OpValue := Some [x31] |} ] 0 0)
  = Some {| Magic := x80; Opcode := xd1; Datatype := 0; Vbucket := 0; Cas := 0;
            Extras := []; Key := [x6b];
            Value := [xc8; x01; x00; x01; x00; x00; x00; x01; x61; x31] |}.
Proof. reflexivity. Qed.

(** ** Multi operations: the handlers under [ErrSubDocBadMulti] *)

Section BadMulti.
Context `{MemdConstants}.
Import Bytes.

Lemma Uint16_ok (l : list byte) :
  (2 <= length l)%nat -> exists v, Uint16 l = Some v /\ 0 <= v < 2 ^ 16.
Proof.
  destruct l as [| b0 [| b1 l]]; cbn [length]; try lia. intros _.
  eexists; split; [reflexivity |].
  pose proof (byteZ_range b0). pose proof (byteZ_range b1). lia.
Qed.

Lemma Uint32_ok (l : list byte) :
  (4 <= length l)%nat -> exists v, Uint32 l = Some v /\ 0 <= v < 2 ^ 32.
Proof.
  destruct l as [| b0 [| b1 [| b2 [| b3 l]]]]; cbn [length]; try lia. intros _.
  eexists; split; [reflexivity |].
  pose proof (byteZ_range b0). pose proof (byteZ_range b1).
  pose proof (byteZ_range b2). pose proof (byteZ_range b3). lia.
Qed.

Lemma sliceFrom_ok (b : list byte) (lo : Z) :
  0 <= lo <= Z.of_nat (length b) -> sliceFrom b lo = Some (drop (Z.to_nat lo) b).
Proof.
  intros [Hlo Hhi]. unfold sliceFrom.
  apply Z.leb_le in Hlo, Hhi. by rewrite Hlo, Hhi.
Qed.

Lemma slice_ok (b : list byte) (lo hi : Z) :
  0 <= lo <= hi -> hi <= Z.of_nat (length b) ->
  slice b lo hi = Some (take (Z.to_nat (hi - lo)) (drop (Z.to_nat lo) b)).
Proof.
  intros [Hlo Hmid] Hhi. unfold slice.
  apply Z.leb_le in Hlo, Hmid, Hhi. by rewrite Hlo, Hmid, Hhi.
Qed.

(** The loop of the lookup handler does not panic: it reports
    [ErrProtocol] or yields one result for each entry of [results]. *)
Lemma lookupDecode_total (value : list byte) (results : list SubDocResult) :
  forall respIter : Z, 0 <= respIter ->
  exists r, lookupDecode value results respIter = Some r /\
    match r with
    | inl e => e = ErrProtocol
    | inr results' => length results' = length results
    end.
Proof.
  induction results as [| r0 rest IH]; intros respIter Hpos.
  - eexists; split; [reflexivity | reflexivity].
  - cbn [lookupDecode].
    destruct (Z.of_nat (length value) <? respIter + 6) eqn:E1.
    { eexists; split; [reflexivity | reflexivity]. }
    apply Z.ltb_ge in E1.
    rewrite !sliceFrom_ok by lia. cbn [mbind option_bind].
    destruct (Uint16_ok (drop (Z.to_nat (respIter + 0)) value)) as (st & -> & Hst).
    { rewrite length_drop. lia. }
    cbn [mbind option_bind].
    destruct (Uint32_ok (drop (Z.to_nat (respIter + 2)) value)) as (n & -> & Hn).
    { rewrite length_drop. lia. }
    cbn [mbind option_bind].
    destruct (Z.of_nat (length value) <? respIter + 6 + n) eqn:E2.
    { eexists; split; [reflexivity | reflexivity]. }
    apply Z.ltb_ge in E2.
    rewrite slice_ok by lia. cbn [mbind option_bind].
    destruct (IH (respIter + (6 + n))) as (r & -> & Hr); [lia |].
    cbn [mbind option_bind].
    destruct r as [e | results'].
    + eexists; split; [reflexivity | exact Hr].
    + eexists; split; [reflexivity |]. cbn [length]. by rewrite Hr.
Qed.

(** On a body that holds one entry for each result, the loop yields the
    decoded entries, whatever follows them. *)
Lemma lookupDecode_body (entries : list (Z * list byte)) :
  forall (pre trailing : list byte) (results : list SubDocResult),
  length results = length entries ->
  Forall entryInRange entries ->
  lookupDecode (pre ++ lookupBody entries ++ trailing) results (Z.of_nat (length pre))
  = Some (inr (decodedEntry <$> entries)).
Proof.
  induction entries as [| [st v] rest IH]; intros pre trailing results Hlen Hrange.
  - destruct results; [reflexivity | discriminate].
  - destruct results as [| r0 results]; [discriminate |].
    apply Forall_cons in Hrange as [[Hst Hv] Hrest]. cbn [fst snd] in Hst, Hv.
    injection Hlen as Hlen.
    unfold lookupBody. cbn [fmap list_fmap concat]. fold (lookupBody rest).
    unfold lookupEntry at 1. cbn [fst snd].
    set (n := Z.of_nat (length v)) in *.
    set (tail := lookupBody rest ++ trailing).
    set (value := pre ++ (([u8 (st / 2 ^ 8); u8 st]
                    ++ [u8 (n / 2 ^ 24); u8 (n / 2 ^ 16); u8 (n / 2 ^ 8); u8 n] ++ v)
                    ++ lookupBody rest) ++ trailing).
    assert (Hvalue : value = pre ++ [u8 (st / 2 ^ 8); u8 st]
                      ++ [u8 (n / 2 ^ 24); u8 (n / 2 ^ 16); u8 (n / 2 ^ 8); u8 n]
                      ++ v ++ tail).
    { unfold value, tail. by rewrite <- !app_assoc. }
    assert (Hsize : Z.of_nat (length value) = Z.of_nat (length pre) + 6 + n + Z.of_nat (length tail)).
    { rewrite Hvalue, !length_app. cbn [length]. lia. }
    cbn [lookupDecode].
    destruct (Z.of_nat (length value) <? Z.of_nat (length pre) + 6) eqn:E1;
      [apply Z.ltb_lt in E1; lia |].
    rewrite !sliceFrom_ok by lia.
    replace (Z.to_nat (Z.of_nat (length pre) + 0)) with (length pre + 0)%nat by lia.
    replace (Z.to_nat (Z.of_nat (length pre) + 2)) with (length pre + 2)%nat by lia.
    assert (Hd0 : drop (length pre + 0) value
                  = [u8 (st / 2 ^ 8); u8 st]
                    ++ [u8 (n / 2 ^ 24); u8 (n / 2 ^ 16); u8 (n / 2 ^ 8); u8 n] ++ v ++ tail)
      by (rewrite Hvalue, drop_app_add; reflexivity).
    assert (Hd2 : drop (length pre + 2) value
                  = [u8 (n / 2 ^ 24); u8 (n / 2 ^ 16); u8 (n / 2 ^ 8); u8 n] ++ v ++ tail)
      by (rewrite Hvalue, drop_app_add; reflexivity).
    assert (Hd6 : drop (length pre + 6) value = v ++ tail)
      by (rewrite Hvalue, drop_app_add; reflexivity).
    rewrite Hd0, Hd2.
    cbn [app mbind option_bind Uint16 Uint32].
    rewrite be16_value, be32_value.
    rewrite (Z.mod_small st) by lia. rewrite (Z.mod_small n) by lia.
    destruct (Z.of_nat (length value) <? Z.of_nat (length pre) + 6 + n) eqn:E2;
      [apply Z.ltb_lt in E2; lia |].
    rewrite slice_ok by lia.
    replace (Z.to_nat (Z.of_nat (length pre) + 6)) with (length pre + 6)%nat by lia.
    replace (Z.to_nat (Z.of_nat (length pre) + 6 + n - (Z.of_nat (length pre) + 6)))
      with (length v) by lia.
    rewrite Hd6, take_app_length.
    cbn [mbind option_bind].
    specialize (IH (pre ++ [u8 (st / 2 ^ 8); u8 st]
                      ++ [u8 (n / 2 ^ 24); u8 (n / 2 ^ 16); u8 (n / 2 ^ 8); u8 n] ++ v)
                   trailing results Hlen Hrest).
    replace (Z.of_nat (length pre) + (6 + n))
      with (Z.of_nat (length (pre ++ [u8 (st / 2 ^ 8); u8 st]
              ++ [u8 (n / 2 ^ 24); u8 (n / 2 ^ 16); u8 (n / 2 ^ 8); u8 n] ++ v)))
      by (rewrite !length_app; cbn [length]; lia).
    replace value with ((pre ++ [u8 (st / 2 ^ 8); u8 st]
              ++ [u8 (n / 2 ^ 24); u8 (n / 2 ^ 16); u8 (n / 2 ^ 8); u8 n] ++ v)
              ++ lookupBody rest ++ trailing)
      by (rewrite Hvalue; unfold tail; by rewrite <- !app_assoc).
    rewrite IH. reflexivity.
Qed.

Lemma SubDocLookup_callback (key : list byte) (ops : list SubDocOp) (h : handler) :
  handlerOf (SubDocLookup key ops) = Some h ->
  h = SubDocLookup_handler (replicate (length ops) {| ResErr := None; ResValue := [] |}).
Proof.
  unfold SubDocLookup, handlerOf.
  destruct (lookupEncode _ _ _ _ _) as [[e | buf] |]; cbn [mbind option_bind];
    intros Hh; [discriminate | | discriminate].
  by injection Hh as <-.
Qed.

Lemma SubDocMutate_callback (key : list byte) (ops : list SubDocOp) (cas expiry : Z)
    (h : handler) :
  handlerOf (SubDocMutate key ops cas expiry) = Some h ->
  h = SubDocMutate_handler (replicate (length ops) {| ResErr := None; ResValue := [] |}).
Proof.
  unfold SubDocMutate, handlerOf.
  destruct (mutateEncode _ _ _ _ _) as [[e | buf] |]; cbn [mbind option_bind];
    intros Hh; [discriminate | | discriminate].
  destruct (if expiry =? 0 then Some [] else PutUint32 (make 4) 0 expiry);
    cbn [mbind option_bind] in Hh; [| discriminate].
  by injection Hh as <-.
Qed.

Lemma u8_byteZ (b : byte) : u8 (byteZ b) = b.
Proof.
  unfold u8, byteZ. pose proof (Byte.to_N_bounded b).
  rewrite Z.mod_small by lia. rewrite N2Z.id. by rewrite Byte.of_to_N.
Qed.

Lemma u8_low (hi : Z) (b : byte) : u8 (hi * 2 ^ 8 + byteZ b) = b.
Proof.
  rewrite <- (u8_byteZ b) at 2. unfold u8.
  replace ((hi * 2 ^ 8 + byteZ b) mod 256) with (byteZ b mod 256); [reflexivity |].
  change (2 ^ 8) with 256. by rewrite Z.add_comm, Z.mod_add by lia.
Qed.

Lemma Uint16_bytes (l : list byte) (v : Z) :
  Uint16 l = Some v -> exists rest, l = [u8 (v / 2 ^ 8); u8 v] ++ rest /\ 0 <= v < 2 ^ 16.
Proof.
  destruct l as [| b0 [| b1 rest]]; cbn [Uint16]; try discriminate.
  intros Hv. injection Hv as <-.
  pose proof (byteZ_range b0). pose proof (byteZ_range b1).
  exists rest. split; [| lia].
  rewrite u8_low.
  replace ((byteZ b0 * 2 ^ 8 + byteZ b1) / 2 ^ 8) with (byteZ b0)
    by (apply Z.div_unique with (r := byteZ b1); lia).
  by rewrite u8_byteZ.
Qed.

Lemma Uint32_bytes (l : list byte) (v : Z) :
  Uint32 l = Some v -> exists rest, l = be32Bytes v ++ rest /\ 0 <= v < 2 ^ 32.
Proof.
  destruct l as [| b0 [| b1 [| b2 [| b3 rest]]]]; cbn [Uint32]; try discriminate.
  intros Hv. injection Hv as <-.
  pose proof (byteZ_range b0). pose proof (byteZ_range b1).
  pose proof (byteZ_range b2). pose proof (byteZ_range b3).
  exists rest. split; [| lia]. unfold be32Bytes. cbn [app].
  set (v := byteZ b0 * 2 ^ 24 + byteZ b1 * 2 ^ 16 + byteZ b2 * 2 ^ 8 + byteZ b3).
  assert (H24 : v / 2 ^ 24 = byteZ b0)
    by (symmetry; apply Z.div_unique with (r := byteZ b1 * 2 ^ 16 + byteZ b2 * 2 ^ 8 + byteZ b3);
        unfold v; lia).
  assert (H16 : v / 2 ^ 16 = byteZ b0 * 2 ^ 8 + byteZ b1)
    by (symmetry; apply Z.div_unique with (r := byteZ b2 * 2 ^ 8 + byteZ b3); unfold v; lia).
  assert (H8 : v / 2 ^ 8 = (byteZ b0 * 2 ^ 8 + byteZ b1) * 2 ^ 8 + byteZ b2)
    by (symmetry; apply Z.div_unique with (r := byteZ b3); unfold v; lia).
  rewrite H24, H16, H8, u8_byteZ, !u8_low.
  replace v with ((byteZ b0 * 2 ^ 16 + byteZ b1 * 2 ^ 8 + byteZ b2) * 2 ^ 8 + byteZ b3)
    by (unfold v; lia).
  by rewrite u8_low.
Qed.

(** When the loop yields results, the body holds, from the position
    read, one complete entry for each of them. *)
Lemma lookupDecode_results (value : list byte) (results : list SubDocResult) :
  forall (respIter : Z) (decoded : list SubDocResult),
  0 <= respIter ->
  lookupDecode value results respIter = Some (inr decoded) ->
  exists entries trailing,
    length entries = length results /\
    Forall entryInRange entries /\
    drop (Z.to_nat respIter) value = lookupBody entries ++ trailing /\
    decoded = decodedEntry <$> entries.
Proof.
  induction results as [| r0 rest IH]; intros respIter decoded Hpos Hdec.
  - injection Hdec as <-. exists [], (drop (Z.to_nat respIter) value). by repeat split.
  - cbn [lookupDecode] in Hdec.
    destruct (Z.of_nat (length value) <? respIter + 6) eqn:E1; [discriminate |].
    apply Z.ltb_ge in E1.
    rewrite !sliceFrom_ok in Hdec by lia. cbn [mbind option_bind] in Hdec.
    set (body := drop (Z.to_nat respIter) value) in *.
    replace (drop (Z.to_nat (respIter + 0)) value) with body in Hdec
      by (unfold body; f_equal; lia).
    replace (drop (Z.to_nat (respIter + 2)) value) with (drop 2 body) in Hdec
      by (unfold body; rewrite drop_drop; f_equal; lia).
    destruct (Uint16 body) as [st |] eqn:Hst; [| discriminate].
    cbn [mbind option_bind] in Hdec.
    destruct (Uint32 (drop 2 body)) as [n |] eqn:Hn; [| discriminate].
    cbn [mbind option_bind] in Hdec.
    destruct (Z.of_nat (length value) <? respIter + 6 + n) eqn:E2; [discriminate |].
    apply Z.ltb_ge in E2.
    apply Uint16_bytes in Hst as (rest16 & Hbody16 & Hstr).
    apply Uint32_bytes in Hn as (rest32 & Hbody32 & Hnr).
    rewrite slice_ok in Hdec by lia. cbn [mbind option_bind] in Hdec.
    replace (drop (Z.to_nat (respIter + 6)) value) with (drop 6 body) in Hdec
      by (unfold body; rewrite drop_drop; f_equal; lia).
    replace (Z.to_nat (respIter + 6 + n - (respIter + 6))) with (Z.to_nat n) in Hdec by lia.
    destruct (lookupDecode value rest (respIter + (6 + n))) as [[e | rs] |] eqn:Hrec;
      cbn [mbind option_bind] in Hdec; try discriminate.
    injection Hdec as <-.
    destruct (IH (respIter + (6 + n)) _ ltac:(lia) Hrec) as (entries & trailing & Hlen & Hrange & Hdrop & ->).
    assert (Hbody : body = [u8 (st / 2 ^ 8); u8 st] ++ be32Bytes n ++ rest32).
    { rewrite Hbody16 in Hbody32. change (rest16 = be32Bytes n ++ rest32) in Hbody32.
      by rewrite Hbody16, Hbody32. }
    assert (Hblen : Z.of_nat (length body) = Z.of_nat (length value) - respIter).
    { unfold body. rewrite length_drop. lia. }
    assert (Hr32 : Z.of_nat (length rest32) = Z.of_nat (length value) - respIter - 6).
    { pose proof (f_equal length Hbody) as Hl. rewrite !length_app in Hl.
      unfold be32Bytes in Hl. cbn [length] in Hl. lia. }
    assert (Hd6 : drop 6 body = rest32) by (rewrite Hbody; reflexivity).
    rewrite Hd6.
    exists ((st, take (Z.to_nat n) rest32) :: entries), trailing.
    assert (Htake : length (take (Z.to_nat n) rest32) = Z.to_nat n)
      by (rewrite length_take; lia).
    split; [cbn [length]; by rewrite Hlen |].
    split.
    { constructor; [| exact Hrange]. unfold entryInRange. cbn [fst snd]. lia. }
    split; [| reflexivity].
    unfold lookupBody. cbn [fmap list_fmap concat]. fold (lookupBody entries).
    unfold lookupEntry. cbn [fst snd]. rewrite Htake, Z2Nat.id by lia.
    rewrite Hbody. fold (be32Bytes n). rewrite <- !app_assoc. do 2 f_equal.
    rewrite <- Hdrop.
    replace (drop (Z.to_nat (respIter + (6 + n))) value) with (drop (Z.to_nat n) rest32).
    { by rewrite take_drop. }
    rewrite <- Hd6. unfold body. rewrite !drop_drop. f_equal. lia.
Qed.

(** C1, as the code has it.  Under [ErrSubDocBadMulti] the lookup handler
    passes the callback either one decoded result for each operation,
    with the response's CAS and [ErrSubDocBadMulti] itself, or no results
    and [ErrProtocol]; the first whenever the body holds a complete entry
    for each operation, and then the results are the entries' decoded
    statuses and values; the second on every other body, that is whenever
    the body is too short for one complete entry for each operation.  The
    mutation handler passes no results: the error is [SubDocMutateError]
    with the index and the decoded status of the one failing operation when
    the body has exactly three bytes, [ErrProtocol] otherwise. *)
Theorem bad_multi_asymmetry (key : list byte) (ops : list SubDocOp) (cas expiry : Z)
    (resp : memdPacket) (req : option memdPacket) :
  (forall h, handlerOf (SubDocLookup key ops) = Some h ->
     (exists call, h (Some resp) req (Some ErrSubDocBadMulti) = Some call /\
        (call = LookupInCb None 0 (Some ErrProtocol) \/
         exists results,
           call = LookupInCb (Some results) (Cas resp) (Some ErrSubDocBadMulti) /\
           length results = length ops)) /\
     (forall entries trailing,
        length entries = length ops ->
        Forall entryInRange entries ->
        Value resp = lookupBody entries ++ trailing ->
        h (Some resp) req (Some ErrSubDocBadMulti)
        = Some (LookupInCb (Some (decodedEntry <$> entries)) (Cas resp)
                  (Some ErrSubDocBadMulti))) /\
     ((forall entries trailing,
         length entries = length ops ->
         Forall entryInRange entries ->
         Value resp <> lookupBody entries ++ trailing) ->
      h (Some resp) req (Some ErrSubDocBadMulti)
      = Some (LookupInCb None 0 (Some ErrProtocol)))) /\
  (forall h, handlerOf (SubDocMutate key ops cas expiry) = Some h ->
     exists err,
       h (Some resp) req (Some ErrSubDocBadMulti) = Some (MutateInCb None 0 noToken (Some err)) /\
       match Value resp with
       | [i; s1; s0] =>
           err = SubDocMutateError (getMemdError (byteZ s1 * 2 ^ 8 + byteZ s0)) (byteZ i)
       | _ => err = ErrProtocol
       end).
Proof.
  split.
  - intros h Hh. apply SubDocLookup_callback in Hh. subst h.
    unfold SubDocLookup_handler. cbn [notNil isSubDocBadMulti negb andb mbind option_bind].
    set (results0 := replicate (length ops) {| ResErr := None; ResValue := [] |}).
    assert (Hlen0 : length results0 = length ops) by apply length_replicate.
    destruct (lookupDecode_total (Value resp) results0 0) as (r & Hdec & Hr); [lia |].
    split; [| split].
    + rewrite Hdec. cbn [mbind option_bind]. destruct r as [e | results].
      * subst e. eexists; split; [reflexivity | by left].
      * eexists; split; [reflexivity | right].
        exists results. split; [reflexivity |]. by rewrite Hr.
    + intros entries trailing Hlen Hrange Hbody. rewrite Hbody.
      pose proof (lookupDecode_body entries [] trailing results0) as Hd.
      cbn [app length] in Hd. change (Z.of_nat 0) with 0 in Hd.
      rewrite Hd; [reflexivity | by rewrite Hlen0 | exact Hrange].
    + intros Hnone. rewrite Hdec. cbn [mbind option_bind].
      destruct r as [e | results]; [by subst e |].
      destruct (lookupDecode_results _ _ 0 results ltac:(lia) Hdec)
        as (entries & trailing & Hlen & Hrange & Hdrop & _).
      exfalso. apply (Hnone entries trailing); [by rewrite Hlen |exact Hrange | exact Hdrop].
  - intros h Hh. apply SubDocMutate_callback in Hh. subst h.
    unfold SubDocMutate_handler. cbn [notNil isSubDocBadMulti negb andb mbind option_bind].
    destruct (Value resp) as [| i [| s1 [| s0 [| x l]]]];
      cbn [length Nat.eqb negb];
      try (eexists; split; reflexivity).
Qed.

End BadMulti.

(** C1 as stated fails: under [ErrSubDocBadMulti] with a body that stops
    after the first of two entries, the lookup callback receives no result
    at all, and [ErrProtocol]. *)
Lemma bad_multi_lookup_truncated :
  (handlerOf (SubDocLookup (H := wireConstants) [x6b] lookupTwo) ≫= fun h =>
     h (Some (responseWith [x00; xc0; x00; x00; x00; x00])) None (Some ErrSubDocBadMulti))
  = Some (LookupInCb None 0 (Some ErrProtocol)).
Proof. reflexivity. Qed.

Lemma bad_multi_asymmetry_witness :
  SubDocLookup_handler (H := wireConstants)
    (replicate 2 {| ResErr := None; ResValue := [] |})
    (Some (responseWith [x00; xc0; x00; x00; x00; x00; x00; x00; x00; x00; x00; x01; x31]))
    None (Some ErrSubDocBadMulti)
  = Some (LookupInCb
            (Some [ {| ResErr := Some (ErrOther "status 192"); ResValue := [] |};
                    {| ResErr := None; ResValue := [x31] |} ])
            9 (Some ErrSubDocBadMulti)).
Proof.
  destruct (proj1 (@bad_multi_asymmetry wireConstants [x6b] lookupTwo 0 0
                     (responseWith [x00; xc0; x00; x00; x00; x00; x00; x00; x00; x00; x00;
                                    x01; x31]) None)
              _ eq_refl) as (_ & Hentries & _).
  apply (Hentries [(192, []); (0, [x31])] [] eq_refl).
  - repeat constructor; cbn; lia.
  - reflexivity.
Defined.

Example bad_multi_mutate_index :
  SubDocMutate_handler (H := wireConstants)
    (replicate 2 {| ResErr := None; ResValue := [] |})
    (Some (responseWith [x01; x00; xc0])) None (Some ErrSubDocBadMulti)
  = Some (MutateInCb None 0 noToken
            (Some (SubDocMutateError (Some (ErrOther "status 192")) 1))).
Proof. reflexivity. Qed.

Example bad_multi_mutate_protocol :
  SubDocMutate_handler (H := wireConstants)
    (replicate 2 {| ResErr := None; ResValue := [] |})
    (Some (responseWith [x01; x00; xc0; x00])) None (Some ErrSubDocBadMulti)
  = Some (MutateInCb None 0 noToken (Some ErrProtocol)).
Proof. reflexivity. Qed.

Example mutate_success_results :
  SubDocMutate_handler (H := wireConstants)
    (replicate 2 {| ResErr := None; ResValue := [] |})
    (Some (responseWith [x01; x00; x00; x00; x00; x00; x02; x34; x32])) (Some (responseWith []))
    None
  = Some (MutateInCb (Some [ {| ResErr := None; ResValue := [] |};
                             {| ResErr := None; ResValue := [x34; x32] |} ])
            9 noToken None).
Proof. reflexivity. Qed.

(** ** Error types *)

(** C2, as the code has it.  All six error types carry the accumulated
    retry reasons and the number of retry attempts; all but [KeyValueError]
    carry the endpoint last tried. *)
Theorem error_types_context (t : Errors.ErrorType) :
  Errors.carries t "RetryReasons" "[]RetryReason" = true /\
  Errors.carries t "RetryAttempts" "uint32" = true /\
  Errors.carries t "Endpoint" "string"
  = match t with Errors.KeyValueError => false | _ => true end.
Proof. destruct t; repeat split. Qed.

(** C2 as stated fails: [KeyValueError] declares no endpoint field, under
    that name or any type. *)
Lemma KeyValueError_without_endpoint :
  Errors.hasField Errors.KeyValueError "Endpoint" = false /\
  In Errors.KeyValueError Errors.allErrorTypes.
Proof. split; [reflexivity | by left]. Qed.

(** ** Agent creation *)

(** C3. The routing configuration that [createAgent] gives to both
    multiplexers has revision -1, and [HasSeenConfig] answers true exactly
    when [ConfigRev] reports no error and a revision above -1; on the first
    configuration it answers false. *)
Theorem initial_revision_not_seen (config : AgentConfig) :
  revID (kvMuxRoute (createAgent config)) = -1 /\
  revID (httpMuxRoute (createAgent config)) = -1 /\
  (forall (rev : Z) (err : option error),
     (HasSeenConfig (rev, err)).1 = true <-> err = None /\ -1 < rev) /\
  (forall (rev : Z), HasSeenConfig (rev, None) = (bool_decide (-1 < rev), None)) /\
  HasSeenConfig (revID (kvMuxRoute (createAgent config)), None) = (false, None).
Proof.
  unfold createAgent. destruct (defaultAuthMechanisms config) as [mechs warns].
  cbn [kvMuxRoute httpMuxRoute revID].
  repeat split.
  - destruct err; cbn in *; [discriminate | reflexivity].
  - destruct err; cbn in *; [discriminate | by apply Z.ltb_lt].
  - intros [-> Hrev]. cbn. by apply Z.ltb_lt.
  - intros rev. cbn. f_equal.
    destruct (-1 <? rev) eqn:E.
    + apply Z.ltb_lt in E. by rewrite bool_decide_eq_true_2.
    + apply Z.ltb_ge in E. rewrite bool_decide_eq_false_2; [reflexivity | lia].
Qed.

(** C5. With no mechanism configured the agent uses PLAIN alone over TLS
    and, without TLS, SCRAM-SHA512, SCRAM-SHA256, SCRAM-SHA1 in this
    order. *)
Theorem default_auth_mechanisms (config : AgentConfig) :
  AuthMechanisms config = [] ->
  authMechanisms (createAgent config)
  = if UseTLS config then [PlainAuthMechanism]
    else [ScramSha512AuthMechanism; ScramSha256AuthMechanism; ScramSha1AuthMechanism].
Proof.
  intros Hnone. unfold createAgent, defaultAuthMechanisms. rewrite Hnone.
  cbn [length Nat.eqb]. by destruct (UseTLS config).
Qed.

Lemma default_auth_mechanisms_witness :
  authMechanisms (createAgent (plainConfig true [])) = [PlainAuthMechanism] /\
  authMechanisms (createAgent (plainConfig false []))
  = [ScramSha512AuthMechanism; ScramSha256AuthMechanism; ScramSha1AuthMechanism].
Proof.
  split.
  - exact (default_auth_mechanisms (plainConfig true []) eq_refl).
  - exact (default_auth_mechanisms (plainConfig false []) eq_refl).
Defined.

Example configured_mechanisms_kept :
  authMechanisms (createAgent (plainConfig false [ScramSha1AuthMechanism; PlainAuthMechanism]))
  = [ScramSha1AuthMechanism; PlainAuthMechanism] /\
  warnings (createAgent (plainConfig false [ScramSha1AuthMechanism; PlainAuthMechanism]))
  = [plainWarning].
Proof. split; reflexivity. Qed.

(** C7. An unset (non-positive) option leaves the CCCP poll period at
    2500 ms, the CCCP maximum wait at 3 s and the HTTP retry delay at 10 s;
    a positive option replaces the default.  The [Agent] literal of the
    older body writes the same three defaults. *)
Theorem poller_defaults (config : AgentConfig) :
  (CccpPollPeriod config <= 0 -> confCccpPollPeriod (createAgent config) = 2500 * Millisecond) /\
  (0 < CccpPollPeriod config -> confCccpPollPeriod (createAgent config) = CccpPollPeriod config) /\
  (CccpMaxWait config <= 0 -> confCccpMaxWait (createAgent config) = 3 * Second) /\
  (0 < CccpMaxWait config -> confCccpMaxWait (createAgent config) = CccpMaxWait config) /\
  (HTTPRetryDelay config <= 0 -> confHTTPRetryDelay (createAgent config) = 10 * Second) /\
  (0 < HTTPRetryDelay config -> confHTTPRetryDelay (createAgent config) = HTTPRetryDelay config) /\
  litCccpPollPeriod agentLiteral = 2500 * Millisecond /\
  litCccpMaxWait agentLiteral = 3 * Second /\
  litHttpRetryDelay agentLiteral = 10 * Second.
Proof.
  unfold createAgent. destruct (defaultAuthMechanisms config) as [mechs warns].
  cbn [confCccpPollPeriod confCccpMaxWait confHTTPRetryDelay]. unfold orDefault.
  repeat split; intros Hopt;
    match goal with
    | |- context [0 <? ?x] => destruct (0 <? x) eqn:E
    end;
    first [reflexivity | apply Z.ltb_lt in E; lia | apply Z.ltb_ge in E; lia].
Qed.

Lemma poller_defaults_witness :
  confCccpPollPeriod (createAgent (plainConfig false [])) = 4000000000 /\
  confCccpMaxWait (createAgent (plainConfig false [])) = 3000000000 /\
  confHTTPRetryDelay (createAgent (plainConfig false [])) = 10000000000.
Proof.
  destruct (poller_defaults (plainConfig false [])) as (_ & Hpoll & Hwait & _ & Hretry & _).
  split; [exact (Hpoll eq_refl) |].
  split; [apply Hwait; discriminate | apply Hretry; discriminate].
Defined.

(** C4. In [connect], a dial that fails with an access error ends the
    whole loop with that error, whatever endpoints remain; a dial that
    fails with any other error moves on to the remaining endpoints. *)
Theorem connect_dial_failure {memdClient bucket : Type}
    (isAccessError : option error -> bool)
    (dialMemdClient : string -> memdClient + error)
    (ExecCccpRequest : memdClient -> Z -> list byte + error)
    (hostFromHostPort : string -> string + error)
    (parseConfig : list byte -> string -> bucket + error)
    (supportsCccp : bucket -> bool)
    (buildFirstRouteConfig : bucket -> string -> routeConfig)
    (IsValid : routeConfig -> bool)
    (serverConnectTimeout now deadline : Z)
    (thisHostPort : string) (rest : list string) (e : error) :
  dialMemdClient thisHostPort = inr e ->
  let run := connect isAccessError dialMemdClient ExecCccpRequest hostFromHostPort
               parseConfig supportsCccp buildFirstRouteConfig IsValid
               serverConnectTimeout now deadline in
  run (thisHostPort :: rest)
  = if isAccessError (Some e) then (ReturnErr (Some e), []) else run rest.
Proof.
  intros Hdial run. unfold run. cbn [connect]. rewrite Hdial.
  by destruct (isAccessError (Some e)).
Qed.

Lemma connect_dial_failure_witness :
  sampleConnect ["a:11210"; "b:11210"; "c:11210"]
  = (ReturnErr (Some (ErrOther "access denied")), []) /\
  sampleConnect ["a:11210"; "c:11210"]
  = (Connected "c:11210" {| kvServerList := ["c:11210"]; mgmtEpList := []; revID := 1 |}, []).
Proof.
  unfold sampleConnect. split.
  - rewrite (connect_dial_failure (memdClient := unit) (bucket := unit)
               sampleIsAccessError sampleDial _ _ _ _ _ _ _ _ _
               "a:11210" ["b:11210"; "c:11210"] (ErrOther "connection refused") eq_refl).
    reflexivity.
  - rewrite (connect_dial_failure (memdClient := unit) (bucket := unit)
               sampleIsAccessError sampleDial _ _ _ _ _ _ _ _ _
               "a:11210" ["c:11210"] (ErrOther "connection refused") eq_refl).
    reflexivity.
Defined.

(** ** Redirect policy *)

Lemma createAgent_CheckRedirect_same (req : Request) (via : list Request) :
  createAgent_CheckRedirect req via = CheckRedirect req via.
Proof. reflexivity. Qed.

(** C6. The redirect policy rejects a request once ten or more requests
    were made before it, with an error; below that it lets the redirect
    through and sets the new request's Authorization header to that of the
    first request of the chain when that one is not empty, leaving the
    request as it is otherwise.  Both copies of the policy agree. *)
Theorem redirect_policy (req oldest : Request) (others : list Request) :
  let via := oldest :: others in
  let auth := Header_Get (Header oldest) "Authorization" in
  ((10 <= length via)%nat ->
     CheckRedirect req via = Some (req, Some (ErrOther "stopped after 10 redirects"))) /\
  ((length via < 10)%nat -> auth <> "" ->
     exists req', CheckRedirect req via = Some (req', None) /\
       Header_Get (Header req') "Authorization" = auth /\
       Header req' !! "Authorization" = Some [auth] /\
       forall key, key <> "Authorization" -> Header req' !! key = Header req !! key) /\
  ((length via < 10)%nat -> auth = "" -> CheckRedirect req via = Some (req, None)) /\
  createAgent_CheckRedirect req via = CheckRedirect req via.
Proof.
  intros via auth. unfold CheckRedirect.
  split; [| split; [| split]].
  - intros Hlen. apply Nat.leb_le in Hlen. by rewrite Hlen.
  - intros Hlen Hauth. apply Nat.leb_gt in Hlen. rewrite Hlen.
    cbn [lookup list_lookup mbind option_bind via]. fold auth.
    destruct (String.eqb auth "") eqn:E; [apply String.eqb_eq in E; contradiction |].
    cbn [negb]. eexists; split; [reflexivity |].
    cbn [Header]. unfold Header_Get, Header_Set.
    rewrite lookup_insert_eq. split; [reflexivity | split; [reflexivity |]].
    intros key Hkey. by rewrite lookup_insert_ne.
  - intros Hlen Hauth. apply Nat.leb_gt in Hlen. rewrite Hlen.
    cbn [lookup list_lookup mbind option_bind via]. fold auth. by rewrite Hauth.
  - reflexivity.
Qed.

Lemma redirect_policy_witness :
  exists req', CheckRedirect (requestWith []) [requestWith ["Basic dXNlcg=="; "x"]; requestWith []]
               = Some (req', None) /\
    Header req' !! "Authorization" = Some ["Basic dXNlcg=="].
Proof.
  destruct (redirect_policy (requestWith []) (requestWith ["Basic dXNlcg=="; "x"])
              [requestWith []]) as (_ & Hfollow & _).
  destruct Hfollow as (req' & Hcall & _ & Hset & _).
  - cbn. lia.
  - discriminate.
  - exists req'. split; [exact Hcall | exact Hset].
Defined.

Example redirect_tenth_rejected :
  CheckRedirect (requestWith []) (replicate 10 (requestWith ["Basic dXNlcg=="]))
  = Some (requestWith [], Some (ErrOther "stopped after 10 redirects")).
Proof. reflexivity. Qed.

Example redirect_ninth_followed :
  snd <$> CheckRedirect (requestWith []) (replicate 9 (requestWith ["Basic dXNlcg=="]))
  = Some None.
Proof. reflexivity. Qed.

(** ** Connection strings *)

Lemma fetchOption_last (spec : ConnSpec) (name : string) (earlier : list string) (v : string) :
  Options spec !! name = Some (earlier ++ [v]) -> fetchOption spec name = (v, true).
Proof.
  intros Hopt. unfold fetchOption. rewrite Hopt.
  change (default [] (Some (earlier ++ [v]))) with (earlier ++ [v]).
  by rewrite last_snoc.
Qed.

(** C8, as the code has it.  The options that [FromConnStr] reads through
    [fetchOption] take the value written last.  The last [bootstrap_on]
    decides the outcome: http and cccp fail without hosts of their kind and
    otherwise store these hosts alone, both and the empty value store both
    lists, as does a string without [bootstrap_on], and any other value
    fails.  Under TLS, when [cacertpath] or [keypath] is given, the
    certificate and the key are the last [certpath] and [keypath].  The CA
    paths are not read so: every [cacertpath] written is kept, and so is
    every [certpath] when neither [cacertpath] nor [keypath] is given. *)
Theorem FromConnStr_bootstrap_on (spec : ConnSpec) :
  let values name := default [] (Options spec !! name) in
  let http := hostPort <$> HttpHosts spec in
  let memd := hostPort <$> MemdHosts spec in
  let stored memdHosts httpHosts :=
    inr {| cfgMemdAddrs := memdHosts; cfgHttpAddrs := httpHosts; cfgTls := sslPaths spec |} in
  (forall name earlier v,
     Options spec !! name = Some (earlier ++ [v]) -> fetchOption spec name = (v, true)) /\
  (forall earlier v,
     Options spec !! "bootstrap_on" = Some (earlier ++ [v]) ->
     (v = "http" -> HttpHosts spec = [] ->
        FromConnStr spec
        = inl (ErrOther "bootstrap_on=http but no HTTP hosts in connection string")) /\
     (v = "http" -> HttpHosts spec <> [] -> FromConnStr spec = stored [] http) /\
     (v = "cccp" -> MemdHosts spec = [] ->
        FromConnStr spec
        = inl (ErrOther "bootstrap_on=cccp but no CCCP/Memcached hosts in connection string")) /\
     (v = "cccp" -> MemdHosts spec <> [] -> FromConnStr spec = stored memd []) /\
     (v = "both" \/ v = "" -> FromConnStr spec = stored memd http) /\
     (v <> "http" -> v <> "cccp" -> v <> "both" -> v <> "" ->
        FromConnStr spec = inl (ErrOther "bootstrap_on={http,cccp,both}"))) /\
  (values "bootstrap_on" = [] -> FromConnStr spec = stored memd http) /\
  (UseSsl spec = true -> values "cacertpath" <> [] \/ values "keypath" <> [] ->
     exists tls, sslPaths spec = Some tls /\
       (forall earlier v,
          Options spec !! "certpath" = Some (earlier ++ [v]) -> certpath tls = v) /\
       (forall earlier v,
          Options spec !! "keypath" = Some (earlier ++ [v]) -> keypath tls = v) /\
       cacertpaths tls = values "cacertpath") /\
  (UseSsl spec = true -> values "cacertpath" = [] -> values "keypath" = [] ->
     sslPaths spec
     = Some {| certpath := ""; keypath := ""; cacertpaths := values "certpath" |}).
Proof.
  intros values http memd stored.
  split; [intros name earlier v; apply fetchOption_last |].
  split; [| split; [| split]].
  - intros earlier v Hopt. unfold FromConnStr.
    rewrite (fetchOption_last _ _ _ _ Hopt). cbn [fst].
    fold http memd. unfold http, memd. rewrite !length_fmap.
    split; [by intros -> -> |].
    split; [intros ->; by destruct (HttpHosts spec) |].
    split; [by intros -> -> |].
    split; [intros ->; by destruct (MemdHosts spec) |].
    split; [by intros [-> | ->] |].
    intros Hhttp Hcccp Hboth Hempty.
    apply String.eqb_neq in Hhttp, Hcccp, Hboth, Hempty.
    by rewrite Hhttp, Hcccp, Hboth, Hempty.
  - intros Hnone. unfold FromConnStr, fetchOption.
    fold (values "bootstrap_on"). by rewrite Hnone.
  - intros Hssl Hgiven. unfold sslPaths. rewrite Hssl.
    fold (values "cacertpath") (values "keypath").
    assert (Hsome : (0 <? length (values "cacertpath"))%nat
                    || (0 <? length (values "keypath"))%nat = true).
    { destruct (values "cacertpath") as [| c cs]; destruct (values "keypath") as [| k ks];
        try reflexivity. by destruct Hgiven. }
    rewrite Hsome. eexists. split; [reflexivity |]. cbn [certpath keypath cacertpaths].
    split; [| split; [| reflexivity]];
      intros earlier v Hopt; by rewrite (fetchOption_last _ _ _ _ Hopt).
  - intros Hssl Hca Hkey. unfold sslPaths. rewrite Hssl.
    fold (values "cacertpath") (values "keypath") (values "certpath").
    by rewrite Hca, Hkey.
Qed.

Lemma FromConnStr_bootstrap_on_witness :
  FromConnStr (sampleSpec ["cccp"; "http"])
  = inr {| cfgMemdAddrs := []; cfgHttpAddrs := ["h1:8091"]; cfgTls := None |} /\
  FromConnStr (sampleSpec ["http"; "cccp"])
  = inl (ErrOther "bootstrap_on=cccp but no CCCP/Memcached hosts in connection string") /\
  FromConnStr (sampleSpec ["cccp"; "file"]) = inl (ErrOther "bootstrap_on={http,cccp,both}") /\
  exists tls, sslPaths sampleCertSpec = Some tls /\
    certpath tls = "c2.pem" /\ keypath tls = "k2.pem" /\
    cacertpaths tls = ["ca1.pem"; "ca2.pem"].
Proof.
  pose proof (FromConnStr_bootstrap_on sampleCertSpec) as (_ & _ & _ & Hpaths & _).
  split; [| split; [| split]].
  - apply (proj1 (proj2 (proj1 (proj2 (FromConnStr_bootstrap_on (sampleSpec ["cccp"; "http"])))
                           ["cccp"] "http" eq_refl)));
      [reflexivity | discriminate].
  - apply (proj1 (proj2 (proj2 (proj1 (proj2 (FromConnStr_bootstrap_on
                                                (sampleSpec ["http"; "cccp"])))
                                  ["http"] "cccp" eq_refl))));
      reflexivity.
  - apply (proj2 (proj2 (proj2 (proj2 (proj2 (proj1 (proj2 (FromConnStr_bootstrap_on
                                                              (sampleSpec ["cccp"; "file"])))
                                                ["cccp"] "file" eq_refl))))));
      discriminate.
  - destruct (Hpaths eq_refl ltac:(left; discriminate)) as (tls & Htls & Hcert & Hkey & Hca).
    exists tls. split; [exact Htls |].
    split; [exact (Hcert ["c1.pem"] "c2.pem" eq_refl) |].
    split; [exact (Hkey ["k1.pem"] "k2.pem" eq_refl) | exact Hca].
Defined.

(** C8 as stated fails for [cacertpath]: written twice, both values reach
    the configuration, where writing the last one alone gives that one
    only. *)
Lemma FromConnStr_cacertpath_all_kept :
  FromConnStr sampleTlsSpec
  = inr {| cfgMemdAddrs := ["h1:11207"]; cfgHttpAddrs := ["h1:18091"];
           cfgTls := Some {| certpath := ""; keypath := "";
                             cacertpaths := ["ca1.pem"; "ca2.pem"] |} |} /\
  FromConnStr (lastOccurrences sampleTlsSpec)
  = inr {| cfgMemdAddrs := ["h1:11207"]; cfgHttpAddrs := ["h1:18091"];
           cfgTls := Some {| certpath := ""; keypath := "";
                             cacertpaths := ["ca2.pem"] |} |}.
Proof. split; reflexivity. Qed.

Example FromConnStr_last_http :
  FromConnStr (sampleSpec ["cccp"; "http"])
  = inr {| cfgMemdAddrs := []; cfgHttpAddrs := ["h1:8091"]; cfgTls := None |}.
Proof. reflexivity. Qed.

(** The TLS branch does not read [cacertpath] through [fetchOption]: it is
    a list of paths, each value written being one of them. *)
Example FromConnStr_cacertpaths :
  FromConnStr sampleTlsSpec
  = inr {| cfgMemdAddrs := ["h1:11207"]; cfgHttpAddrs := ["h1:18091"];
           cfgTls := Some {| certpath := ""; keypath := "";
                             cacertpaths := ["ca1.pem"; "ca2.pem"] |} |}.
Proof. reflexivity. Qed.

(** * Further properties of the sub-document operations *)

Section ExactWrites.
Import Bytes.

Lemma store_exact (pre suf : list byte) (old v : byte) :
  store (pre ++ old :: suf) (length pre) v = Some (pre ++ v :: suf).
Proof.
  unfold store. rewrite length_app. cbn [length].
  destruct (length pre <? length pre + S (length suf))%nat eqn:E;
    [| apply Nat.ltb_ge in E; lia].
  f_equal. rewrite insert_app_r_alt by lia. by rewrite Nat.sub_diag.
Qed.

Lemma PutUint16_exact (pre suf : list byte) (o1 o2 : byte) (v : Z) :
  PutUint16 (pre ++ o1 :: o2 :: suf) (length pre) v
  = Some (pre ++ [u8 (v / 2 ^ 8); u8 v] ++ suf).
Proof.
  unfold PutUint16. rewrite length_app. cbn [length].
  destruct (length pre + 2 <=? length pre + S (S (length suf)))%nat eqn:E;
    [| apply Nat.leb_gt in E; lia].
  by rewrite take_app_length, drop_app_add.
Qed.

Lemma PutUint32_exact (pre suf : list byte) (o1 o2 o3 o4 : byte) (v : Z) :
  PutUint32 (pre ++ o1 :: o2 :: o3 :: o4 :: suf) (length pre) v
  = Some (pre ++ [u8 (v / 2 ^ 24); u8 (v / 2 ^ 16); u8 (v / 2 ^ 8); u8 v] ++ suf).
Proof.
  unfold PutUint32. rewrite length_app. cbn [length].
  destruct (length pre + 4 <=? length pre + S (S (S (S (length suf)))))%nat eqn:E;
    [| apply Nat.leb_gt in E; lia].
  by rewrite take_app_length, drop_app_add.
Qed.

End ExactWrites.

Section MultiLayout.
Context `{MemdConstants}.
Import Bytes.

Lemma make_add (n m : nat) : make (n + m) = make n ++ make m.
Proof. unfold make. apply replicate_add. Qed.

Lemma make_length (n : nat) : length (make n) = n.
Proof. unfold make. apply length_replicate. Qed.

(** One round of the lookup loop on a buffer filled up to [done]. *)
Lemma lookup_round (done : list byte) (op : SubDocOp) (r : nat) :
  let pathBytes := list_byte_of_string (Path op) in
  (store (done ++ make (4 + length pathBytes + r)) (length done + 0) (Op op) ≫= fun b =>
   store b (length done + 1) (Flags op) ≫= fun b =>
   PutUint16 b (length done + 2) (uint16 (Z.of_nat (length pathBytes))) ≫= fun b =>
   copy b (length done + 4) pathBytes)
  = Some ((done ++ lookupSpec op) ++ make r).
Proof.
  intros pathBytes.
  change (make (4 + length pathBytes + r))
    with (x00 :: x00 :: x00 :: x00 :: make (length pathBytes + r)).
  rewrite Nat.add_0_r, store_exact. cbn [mbind option_bind].
  replace (length done + 1)%nat with (length (done ++ [Op op]))
    by (rewrite length_app; reflexivity).
  rewrite (cons_middle (Op op) done), app_assoc, store_exact. cbn [mbind option_bind].
  replace (length (done ++ [Op op]))%nat with (length done + 1)%nat
    by (rewrite length_app; reflexivity).
  replace (length done + 2)%nat with (length ((done ++ [Op op]) ++ [Flags op]))
    by (rewrite !length_app; cbn [length]; lia).
  rewrite (cons_middle (Flags op) (done ++ [Op op])), app_assoc, PutUint16_exact.
  cbn [mbind option_bind].
  rewrite make_add.
  set (hdr := ((done ++ [Op op]) ++ [Flags op])
              ++ [u8 (uint16 (Z.of_nat (length pathBytes)) / 2 ^ 8);
                  u8 (uint16 (Z.of_nat (length pathBytes)))]).
  replace (length done + 4)%nat with (length hdr)
    by (unfold hdr; rewrite !length_app; cbn [length]; lia).
  replace (((done ++ [Op op]) ++ [Flags op])
           ++ [u8 (uint16 (Z.of_nat (length pathBytes)) / 2 ^ 8);
               u8 (uint16 (Z.of_nat (length pathBytes)))]
           ++ make (length pathBytes) ++ make r)
    with (hdr ++ make (length pathBytes) ++ make r)
    by (unfold hdr; by rewrite <- !app_assoc).
  rewrite copy_exact by apply make_length.
  f_equal. unfold hdr, lookupSpec, pathLenBytes. fold pathBytes.
  by rewrite <- !app_assoc.
Qed.

Lemma lookupEncode_layout (ops : list SubDocOp) :
  forall (pre : list (list byte)) (done : list byte),
  forallb validLookupOp ops = true ->
  lookupEncode (pre ++ pathBytesList ops) ops (length pre)
    (done ++ make (lookupSize ops)) (length done)
  = Some (inr (done ++ lookupValue ops)).
Proof.
  induction ops as [| op rest IH]; intros pre done Hvalid.
  - cbn [lookupEncode lookupSize lookupValue fmap list_fmap concat].
    by rewrite !app_nil_r.
  - cbn [forallb] in Hvalid. apply andb_true_iff in Hvalid as [Hop Hrest].
    unfold validLookupOp in Hop. apply andb_true_iff in Hop as [Hkind Hnil].
    cbn [lookupEncode].
    replace (negb (Byte.eqb (Op op) SubDocOpGet) && negb (Byte.eqb (Op op) SubDocOpExists))
      with false by (rewrite <- negb_orb, Hkind; reflexivity).
    destruct (OpValue op) as [v |]; [discriminate |].
    change (pathBytesList (op :: rest))
      with (list_byte_of_string (Path op) :: pathBytesList rest).
    rewrite list_lookup_middle by reflexivity. cbn [mbind option_bind].
    rewrite lookupSize_cons.
    pose proof (lookup_round done op (lookupSize rest)) as Hround. cbn zeta in Hround.
    destruct (store (done ++ make (4 + length (list_byte_of_string (Path op)) + lookupSize rest))
                (length done + 0) (Op op)) as [b1 |]; [| discriminate].
    cbn [mbind option_bind] in Hround |- *.
    destruct (store b1 (length done + 1) (Flags op)) as [b2 |]; [| discriminate].
    cbn [mbind option_bind] in Hround |- *.
    destruct (PutUint16 b2 (length done + 2) _) as [b3 |]; [| discriminate].
    cbn [mbind option_bind] in Hround |- *.
    rewrite Hround. cbn [mbind option_bind].
    specialize (IH (pre ++ [list_byte_of_string (Path op)]) (done ++ lookupSpec op) Hrest).
    rewrite <- app_assoc, !length_app in IH. cbn [app length] in IH.
    rewrite Nat.add_1_r in IH.
    replace (length done + (4 + length (list_byte_of_string (Path op))))%nat
      with (length done + length (lookupSpec op))%nat
      by (unfold lookupSpec, pathLenBytes; rewrite !length_app; cbn [length]; lia).
    rewrite IH. f_equal. f_equal.
    unfold lookupValue. cbn [fmap list_fmap concat]. by rewrite <- app_assoc.
Qed.

(** One round of the mutation loop on a buffer filled up to [done]. *)
Lemma mutate_round (done : list byte) (op : SubDocOp) (r : nat) :
  let pathBytes := list_byte_of_string (Path op) in
  let opValue := default [] (OpValue op) in
  (store (done ++ make (8 + length pathBytes + length opValue + r)) (length done + 0) (Op op)
     ≫= fun b =>
   store b (length done + 1) (Flags op) ≫= fun b =>
   PutUint16 b (length done + 2) (uint16 (Z.of_nat (length pathBytes))) ≫= fun b =>
   PutUint32 b (length done + 4) (uint32 (Z.of_nat (length opValue))) ≫= fun b =>
   copy b (length done + 8) pathBytes ≫= fun b =>
   copy b (length done + 8 + length pathBytes) opValue)
  = Some ((done ++ mutateSpec op) ++ make r).
Proof.
  intros pathBytes opValue.
  change (make (8 + length pathBytes + length opValue + r))
    with (x00 :: x00 :: x00 :: x00 :: x00 :: x00 :: x00 :: x00
          :: make (length pathBytes + length opValue + r)).
  rewrite Nat.add_0_r, store_exact. cbn [mbind option_bind].
  replace (length done + 1)%nat with (length (done ++ [Op op]))
    by (rewrite length_app; reflexivity).
  rewrite (cons_middle (Op op) done), app_assoc, store_exact. cbn [mbind option_bind].
  replace (length (done ++ [Op op]))%nat with (length done + 1)%nat
    by (rewrite length_app; reflexivity).
  replace (length done + 2)%nat with (length ((done ++ [Op op]) ++ [Flags op]))
    by (rewrite !length_app; cbn [length]; lia).
  rewrite (cons_middle (Flags op) (done ++ [Op op])), app_assoc, PutUint16_exact.
  cbn [mbind option_bind].
  set (h4 := ((done ++ [Op op]) ++ [Flags op])
             ++ [u8 (uint16 (Z.of_nat (length pathBytes)) / 2 ^ 8);
                 u8 (uint16 (Z.of_nat (length pathBytes)))]).
  replace (length ((done ++ [Op op]) ++ [Flags op])) with (length done + 2)%nat
    by (rewrite !length_app; cbn [length]; lia).
  replace (length done + 4)%nat with (length h4)
    by (unfold h4; rewrite !length_app; cbn [length]; lia).
  replace (((done ++ [Op op]) ++ [Flags op])
           ++ [u8 (uint16 (Z.of_nat (length pathBytes)) / 2 ^ 8);
               u8 (uint16 (Z.of_nat (length pathBytes)))]
           ++ x00 :: x00 :: x00 :: x00 :: make (length pathBytes + length opValue + r))
    with (h4 ++ x00 :: x00 :: x00 :: x00 :: make (length pathBytes + length opValue + r))
    by (unfold h4; by rewrite <- !app_assoc).
  rewrite PutUint32_exact. cbn [mbind option_bind].
  fold (be32Bytes (uint32 (Z.of_nat (length opValue)))).
  set (h8 := h4 ++ be32Bytes (uint32 (Z.of_nat (length opValue)))).
  assert (Hh8 : length h8 = (length done + 8)%nat)
    by (unfold h8, h4, be32Bytes; rewrite !length_app; cbn [length]; lia).
  rewrite app_assoc. fold h8.
  rewrite <- Hh8, <- Nat.add_assoc, !make_add.
  rewrite copy_exact by apply make_length. cbn [mbind option_bind].
  replace (length h8 + length pathBytes)%nat with (length (h8 ++ pathBytes))
    by (by rewrite length_app).
  rewrite (app_assoc h8 pathBytes), copy_exact by apply make_length.
  f_equal. unfold h8, h4, mutateSpec, pathLenBytes. fold pathBytes opValue.
  by rewrite <- !app_assoc.
Qed.

Lemma mutateEncode_layout (ops : list SubDocOp) :
  forall (pre : list (list byte)) (done : list byte),
  forallb (fun op => isMutationOp (Op op)) ops = true ->
  mutateEncode (pre ++ pathBytesList ops) ops (length pre)
    (done ++ make (mutateSize ops)) (length done)
  = Some (inr (done ++ mutateValue ops)).
Proof.
  induction ops as [| op rest IH]; intros pre done Hvalid.
  - cbn [mutateEncode mutateSize mutateValue fmap list_fmap concat].
    by rewrite !app_nil_r.
  - cbn [forallb] in Hvalid. apply andb_true_iff in Hvalid as [Hop Hrest].
    cbn [mutateEncode]. rewrite Hop. cbn [negb].
    change (pathBytesList (op :: rest))
      with (list_byte_of_string (Path op) :: pathBytesList rest).
    rewrite list_lookup_middle by reflexivity. cbn [mbind option_bind].
    rewrite mutateSize_cons.
    pose proof (mutate_round done op (mutateSize rest)) as Hround. cbn zeta in Hround.
    destruct (store (done ++ make _) (length done + 0) (Op op)) as [b1 |]; [| discriminate].
    cbn [mbind option_bind] in Hround |- *.
    destruct (store b1 (length done + 1) (Flags op)) as [b2 |]; [| discriminate].
    cbn [mbind option_bind] in Hround |- *.
    destruct (PutUint16 b2 (length done + 2) _) as [b3 |]; [| discriminate].
    cbn [mbind option_bind] in Hround |- *.
    destruct (PutUint32 b3 (length done + 4) _) as [b4 |]; [| discriminate].
    cbn [mbind option_bind] in Hround |- *.
    destruct (copy b4 (length done + 8) _) as [b5 |]; [| discriminate].
    cbn [mbind option_bind] in Hround |- *.
    rewrite Hround. cbn [mbind option_bind].
    specialize (IH (pre ++ [list_byte_of_string (Path op)]) (done ++ mutateSpec op) Hrest).
    rewrite <- app_assoc, !length_app in IH. cbn [app length] in IH.
    rewrite Nat.add_1_r in IH.
    replace (length done + (8 + length (list_byte_of_string (Path op))
                              + length (default [] (OpValue op))))%nat
      with (length done + length (mutateSpec op))%nat
      by (unfold mutateSpec, pathLenBytes, be32Bytes; rewrite !length_app; cbn [length]; lia).
    rewrite IH. f_equal. f_equal.
    unfold mutateValue. cbn [fmap list_fmap concat]. by rewrite <- app_assoc.
Qed.

(** X1. A lookup whose operations are all gets or exists without value
    is dispatched as one multi-lookup frame: no extras, CAS 0, and as value
    the operations in order, each as operation byte, flags byte, big-endian
    16-bit path length and path. *)
Theorem SubDocLookup_frame_layout (key : list byte) (ops : list SubDocOp) :
  (forall op, op ∈ ops ->
     (Op op = SubDocOpGet \/ Op op = SubDocOpExists) /\ OpValue op = None) ->
  sentPacket (SubDocLookup key ops)
  = Some {| Magic := ReqMagic; Opcode := CmdSubDocMultiLookup; Datatype := 0; Vbucket := 0;
            Cas := 0; Extras := []; Key := key; Value := lookupValue ops |}.
Proof.
  intros Hops.
  assert (Hvalid : forallb validLookupOp ops = true).
  { apply forallb_forall. intros op Hin. apply list_elem_of_In in Hin.
    destruct (Hops op Hin) as [Hkind Hnil]. unfold validLookupOp. rewrite Hnil.
    destruct Hkind as [Hk | Hk]; apply Byte.byte_dec_lb in Hk; rewrite Hk;
      [reflexivity | by rewrite orb_true_r]. }
  unfold SubDocLookup.
  pose proof (lookupEncode_layout ops [] [] Hvalid) as Henc.
  cbn [app length] in Henc. rewrite pathBytesTotal_sum, Henc. reflexivity.
Qed.

(** X2. A mutation whose operations are all among the nine mutation
    operations is dispatched as one multi-mutation frame with the caller's
    CAS: the extras are empty for expiry 0 and the four big-endian bytes of
    the expiry otherwise, and the value holds the operations in order, each
    as operation byte, flags byte, 16-bit path length, 32-bit value length,
    path and value. *)
Theorem SubDocMutate_frame_layout (key : list byte) (ops : list SubDocOp) (cas expiry : Z) :
  (forall op, op ∈ ops -> Op op ∈ mutationOps) ->
  sentPacket (SubDocMutate key ops cas expiry)
  = Some {| Magic := ReqMagic; Opcode := CmdSubDocMultiMutation; Datatype := 0; Vbucket := 0;
            Cas := cas; Extras := expiryBytes expiry; Key := key;
            Value := mutateValue ops |}.
Proof.
  intros Hops.
  assert (Hvalid : forallb (fun op => isMutationOp (Op op)) ops = true).
  { apply forallb_forall. intros op Hin. apply list_elem_of_In in Hin.
    apply isMutationOp_elem. by apply Hops. }
  unfold SubDocMutate.
  pose proof (mutateEncode_layout ops [] [] Hvalid) as Henc.
  cbn [app length] in Henc. rewrite mutateTotal_sum, Henc.
  cbn [mbind option_bind]. unfold expiryBytes.
  destruct (expiry =? 0); reflexivity.
Qed.

(** X3. [createParents] does not reach the wire: whatever its value, a
    store operation builds the same request ([SubDocFlagMkDirP] is collected
    in a variable that is never written to the frame). *)
Theorem createParents_not_sent (opcode : byte) (key : list byte) (path : string)
    (value : list byte) (createParents : bool) (cas expiry : Z) :
  storeIn opcode key path value createParents cas expiry
  = storeIn opcode key path value false cas expiry /\
  SetIn key path value createParents cas expiry = SetIn key path value false cas expiry /\
  AddIn key path value createParents cas expiry = AddIn key path value false cas expiry /\
  PushFrontIn key path value createParents cas expiry
  = PushFrontIn key path value false cas expiry /\
  PushBackIn key path value createParents cas expiry
  = PushBackIn key path value false cas expiry /\
  AddUniqueIn key path value createParents cas expiry
  = AddUniqueIn key path value false cas expiry.
Proof. repeat split. Qed.

(** X4. The path length is announced modulo 65536: two paths whose lengths
    agree modulo 65536 get the same extras, in [GetIn] as in [RemoveIn]; a
    path of 65536 bytes is announced with length 0. *)
Theorem path_length_wraps (key : list byte) (path1 path2 : string) (cas expiry : Z) :
  Z.of_nat (length (list_byte_of_string path1)) mod 2 ^ 16
  = Z.of_nat (length (list_byte_of_string path2)) mod 2 ^ 16 ->
  Extras <$> sentPacket (GetIn key path1) = Extras <$> sentPacket (GetIn key path2) /\
  Extras <$> sentPacket (RemoveIn key path1 cas expiry)
  = Extras <$> sentPacket (RemoveIn key path2 cas expiry).
Proof.
  intros Hlen. unfold GetIn, RemoveIn.
  rewrite !subdocExtras_bytes. unfold pathLenBytes, uint16.
  cbn [mbind option_bind PutUint16 store make replicate length Nat.leb Nat.ltb Nat.add].
  rewrite Hlen. split; reflexivity.
Qed.

End MultiLayout.

Section Handlers.
Context `{MemdConstants}.
Import Bytes.

(** X5. Every completion handler passes an error on as it came, with zero
    values beside it and without reading the response, which may be nil;
    the two multi handlers do so for every error but [ErrSubDocBadMulti]. *)
Theorem handlers_pass_errors (results : list SubDocResult) (resp req : option memdPacket)
    (e : error) :
  GetIn_handler resp req (Some e) = Some (GetInCb [] 0 (Some e)) /\
  ExistsIn_handler resp req (Some e) = Some (ExistsInCb 0 (Some e)) /\
  storeIn_handler resp req (Some e) = Some (StoreInCb 0 noToken (Some e)) /\
  CounterIn_handler resp req (Some e) = Some (CounterInCb [] 0 noToken (Some e)) /\
  RemoveIn_handler resp req (Some e) = Some (RemoveInCb 0 noToken (Some e)) /\
  (e <> ErrSubDocBadMulti ->
   SubDocLookup_handler results resp req (Some e) = Some (LookupInCb None 0 (Some e)) /\
   SubDocMutate_handler results resp req (Some e)
   = Some (MutateInCb None 0 noToken (Some e))).
Proof.
  repeat split; try reflexivity.
  - unfold SubDocLookup_handler. destruct e; try reflexivity. contradiction.
  - unfold SubDocMutate_handler. destruct e; try reflexivity. contradiction.
Qed.

Lemma be64_value (v : Z) :
  byteZ (u8 (v / 2 ^ 56)) * 2 ^ 56 + byteZ (u8 (v / 2 ^ 48)) * 2 ^ 48
    + byteZ (u8 (v / 2 ^ 40)) * 2 ^ 40 + byteZ (u8 (v / 2 ^ 32)) * 2 ^ 32
    + byteZ (u8 (v / 2 ^ 24)) * 2 ^ 24 + byteZ (u8 (v / 2 ^ 16)) * 2 ^ 16
    + byteZ (u8 (v / 2 ^ 8)) * 2 ^ 8 + byteZ (u8 v) = v mod 2 ^ 64.
Proof.
  rewrite !byteZ_u8.
  change (2 ^ 64) with (2 ^ 32 * 2 ^ 32).
  rewrite Z.rem_mul_r by lia.
  rewrite <- (be32_value v), <- (be32_value (v / 2 ^ 32)), !byteZ_u8.
  rewrite !Z.div_div by lia.
  change (2 ^ 32 * 2 ^ 24) with (2 ^ 56). change (2 ^ 32 * 2 ^ 16) with (2 ^ 48).
  change (2 ^ 32 * 2 ^ 8) with (2 ^ 40). lia.
Qed.

Lemma Uint64_be64 (v : Z) (rest : list byte) :
  0 <= v < 2 ^ 64 -> Uint64 (be64Bytes v ++ rest) = Some v.
Proof.
  intros Hv. unfold be64Bytes. cbn [app Uint64].
  by rewrite be64_value, Z.mod_small.
Qed.

Lemma readMutationToken_long (resp req : memdPacket) (vbUuid seqNo : Z) (rest : list byte) :
  0 <= vbUuid < 2 ^ 64 -> 0 <= seqNo < 2 ^ 64 ->
  Extras resp = be64Bytes vbUuid ++ be64Bytes seqNo ++ rest ->
  readMutationToken (Some resp) (Some req)
  = Some {| VbId := Vbucket req; VbUuid := vbUuid; SeqNo := seqNo |}.
Proof.
  intros Hu Hs Hextras. unfold readMutationToken. cbn [mbind option_bind].
  assert (Hlen : length (Extras resp) = (16 + length rest)%nat)
    by (rewrite Hextras, !length_app; reflexivity).
  rewrite Hlen. cbn [Nat.add Nat.leb].
  rewrite !sliceFrom_ok by lia.
  replace (drop (Z.to_nat 0) (Extras resp))
    with (be64Bytes vbUuid ++ be64Bytes seqNo ++ rest) by (rewrite Hextras; reflexivity).
  replace (drop (Z.to_nat 8) (Extras resp)) with (be64Bytes seqNo ++ rest)
    by (rewrite Hextras; reflexivity).
  cbn [mbind option_bind].
  rewrite (Uint64_be64 vbUuid) by assumption. cbn [mbind option_bind].
  rewrite (Uint64_be64 seqNo) by assumption. reflexivity.
Qed.

Lemma readMutationToken_short (resp : memdPacket) (req : option memdPacket) :
  (length (Extras resp) < 16)%nat ->
  readMutationToken (Some resp) req = Some noToken.
Proof.
  intros Hshort. unfold readMutationToken. cbn [mbind option_bind].
  apply Nat.leb_gt in Hshort. by rewrite Hshort.
Qed.

(** X6. On success a mutation handler hands over the response's CAS and
    the mutation token read off its extras: with sixteen bytes or more, the
    request's vbucket and the two big-endian 64-bit numbers at offsets 0 and
    8; with fewer, the zero token, the request not being read. *)
Theorem mutation_token_read (resp req : memdPacket) (vbUuid seqNo : Z) (rest : list byte) :
  (0 <= vbUuid < 2 ^ 64 -> 0 <= seqNo < 2 ^ 64 ->
   Extras resp = be64Bytes vbUuid ++ be64Bytes seqNo ++ rest ->
   let tok := {| VbId := Vbucket req; VbUuid := vbUuid; SeqNo := seqNo |} in
   storeIn_handler (Some resp) (Some req) None = Some (StoreInCb (Cas resp) tok None) /\
   CounterIn_handler (Some resp) (Some req) None
   = Some (CounterInCb (Value resp) (Cas resp) tok None) /\
   RemoveIn_handler (Some resp) (Some req) None = Some (RemoveInCb (Cas resp) tok None)) /\
  ((length (Extras resp) < 16)%nat ->
   forall anyReq,
   storeIn_handler (Some resp) anyReq None = Some (StoreInCb (Cas resp) noToken None) /\
   CounterIn_handler (Some resp) anyReq None
   = Some (CounterInCb (Value resp) (Cas resp) noToken None) /\
   RemoveIn_handler (Some resp) anyReq None = Some (RemoveInCb (Cas resp) noToken None)).
Proof.
  split.
  - intros Hu Hs Hextras tok.
    unfold storeIn_handler, CounterIn_handler, RemoveIn_handler.
    rewrite (readMutationToken_long resp req vbUuid seqNo rest Hu Hs Hextras).
    repeat split.
  - intros Hshort anyReq.
    unfold storeIn_handler, CounterIn_handler, RemoveIn_handler.
    rewrite (readMutationToken_short resp anyReq Hshort).
    repeat split.
Qed.

End Handlers.

(** ** The success path of the mutation handler *)

Section MutateDecode.
Context `{MemdConstants}.
Import Bytes.

Lemma uint32_small (z : Z) : 0 <= z < 2 ^ 32 -> uint32 z = z.
Proof. intros Hz. unfold uint32. by apply Z.mod_small. Qed.

Lemma index_app (pre suf : list byte) (b : byte) :
  index (pre ++ b :: suf) (Z.of_nat (length pre)) = Some b.
Proof.
  unfold index. rewrite length_app. cbn [length].
  replace ((0 <=? Z.of_nat (length pre))
           && (Z.of_nat (length pre) <? Z.of_nat (length pre + S (length suf))))
    with true by (symmetry; apply andb_true_iff; split;
                  [apply Z.leb_le | apply Z.ltb_lt]; lia).
  rewrite Nat2Z.id. by apply list_lookup_middle.
Qed.

Lemma sliceFrom_app (pre suf : list byte) :
  sliceFrom (pre ++ suf) (Z.of_nat (length pre)) = Some suf.
Proof.
  rewrite sliceFrom_ok by (rewrite length_app; lia).
  by rewrite Nat2Z.id, drop_app_length.
Qed.

Lemma slice_app (pre v suf : list byte) :
  slice (pre ++ v ++ suf) (Z.of_nat (length pre)) (Z.of_nat (length pre) + Z.of_nat (length v))
  = Some v.
Proof.
  rewrite slice_ok by (rewrite ?length_app; lia).
  rewrite Nat2Z.id, drop_app_length.
  replace (Z.to_nat (Z.of_nat (length pre) + Z.of_nat (length v) - Z.of_nat (length pre)))
    with (length v) by lia.
  by rewrite take_app_length.
Qed.

Lemma Uint16_be16 (v : Z) (rest : list byte) :
  0 <= v < 2 ^ 16 -> Uint16 ([u8 (v / 2 ^ 8); u8 v] ++ rest) = Some v.
Proof. intros Hv. cbn [app Uint16]. by rewrite be16_value, Z.mod_small. Qed.

Lemma Uint32_be32 (v : Z) (rest : list byte) :
  0 <= v < 2 ^ 32 -> Uint32 (be32Bytes v ++ rest) = Some v.
Proof.
  intros Hv. unfold be32Bytes. cbn [app Uint32]. by rewrite be32_value, Z.mod_small.
Qed.

Lemma mutateEntryBytes_length (entry : Z * Z * list byte) :
  (3 <= length (mutateEntryBytes entry))%nat.
Proof.
  destruct entry as [[opIndex status] value]. unfold mutateEntryBytes.
  rewrite !length_app. cbn [length]. lia.
Qed.

(** On a body made of entries that name existing operations, the loop
    applies them in order. *)
Lemma mutateDecode_body (entries : list (Z * Z * list byte)) :
  forall (fuel : nat) (pre : list byte) (results : list SubDocResult),
  (length entries < fuel)%nat ->
  Forall (mutateEntryInRange (length results)) entries ->
  Z.of_nat (length (pre ++ mutateBody entries)) < 2 ^ 32 ->
  mutateDecode fuel (pre ++ mutateBody entries) results (Z.of_nat (length pre))
  = Some (foldl applyMutateEntry results entries).
Proof.
  induction entries as [| [[opIndex status] value] rest IH];
    intros fuel pre results Hfuel Hrange Hsize.
  - destruct fuel as [| fuel]; [cbn [length] in Hfuel; lia |].
    cbn [mutateDecode mutateBody fmap list_fmap concat foldl] in *.
    rewrite uint32_small by lia.
    rewrite app_nil_r in *. by rewrite Z.ltb_irrefl.
  - destruct fuel as [| fuel]; [cbn [length] in Hfuel; lia |].
    cbn [length] in Hfuel.
    apply Forall_cons in Hrange as [(Hidx & Hidx8 & Hst & Hval) Hrest].
    unfold mutateBody in *. cbn [fmap list_fmap concat] in *. fold (mutateBody rest) in *.
    set (tailBytes := if status =? StatusSuccess
                      then be32Bytes (Z.of_nat (length value)) ++ value else []) in *.
    assert (Hentry : mutateEntryBytes (opIndex, status, value)
                     = [u8 opIndex] ++ [u8 (status / 2 ^ 8); u8 status] ++ tailBytes)
      by reflexivity.
    rewrite Hentry in *. clear Hentry.
    set (body := pre ++ ([u8 opIndex] ++ [u8 (status / 2 ^ 8); u8 status] ++ tailBytes)
                 ++ mutateBody rest) in *.
    assert (Hlen : Z.of_nat (length body)
                   = Z.of_nat (length pre) + 3 + Z.of_nat (length tailBytes)
                     + Z.of_nat (length (mutateBody rest))).
    { unfold body. rewrite !length_app. cbn [length]. lia. }
    cbn [mutateDecode].
    rewrite (uint32_small (Z.of_nat (length body))) by lia.
    destruct (Z.of_nat (length pre) <? Z.of_nat (length body)) eqn:E;
      [| apply Z.ltb_ge in E; lia].
    rewrite (uint32_small (Z.of_nat (length pre) + 0)),
      (uint32_small (Z.of_nat (length pre) + 1)),
      (uint32_small (Z.of_nat (length pre) + 3)) by lia.
    (* the index byte *)
    assert (Hb0 : index body (Z.of_nat (length pre) + 0) = Some (u8 opIndex)).
    { rewrite Z.add_0_r. unfold body. cbn [app]. apply index_app. }
    rewrite Hb0. cbn [fmap option_fmap option_map mbind option_bind].
    rewrite byteZ_u8, (Z.mod_small opIndex) by lia.
    (* the status *)
    assert (Hb1 : sliceFrom body (Z.of_nat (length pre) + 1)
                  = Some ([u8 (status / 2 ^ 8); u8 status] ++ tailBytes ++ mutateBody rest)).
    { replace (Z.of_nat (length pre) + 1) with (Z.of_nat (length (pre ++ [u8 opIndex])))
        by (rewrite length_app; cbn [length]; lia).
      replace body with ((pre ++ [u8 opIndex])
                         ++ [u8 (status / 2 ^ 8); u8 status] ++ tailBytes ++ mutateBody rest)
        by (unfold body; by rewrite <- !app_assoc).
      apply sliceFrom_app. }
    rewrite Hb1. cbn [mbind option_bind].
    rewrite Uint16_be16 by lia. cbn [mbind option_bind].
    destruct (results !! Z.to_nat opIndex) as [old |] eqn:Hold.
    2:{ apply lookup_ge_None in Hold. lia. }
    cbn [mbind option_bind].
    assert (Hpos : Z.of_nat (length pre) + 3
                   = Z.of_nat (length (pre ++ [u8 opIndex; u8 (status / 2 ^ 8); u8 status])))
      by (rewrite length_app; cbn [length]; lia).
    assert (Hbody : body = (pre ++ [u8 opIndex; u8 (status / 2 ^ 8); u8 status])
                           ++ tailBytes ++ mutateBody rest)
      by (unfold body; by rewrite <- !app_assoc).
    cbn [applyMutateEntry foldl]. rewrite Hold.
    unfold tailBytes in *.
    destruct (status =? StatusSuccess) eqn:Esucc.
    + (* success: a length and a value follow *)
      assert (Hb3 : sliceFrom body (Z.of_nat (length pre) + 3)
                    = Some (be32Bytes (Z.of_nat (length value)) ++ value ++ mutateBody rest)).
      { rewrite Hpos, Hbody, <- (app_assoc (be32Bytes _) value (mutateBody rest)).
        apply sliceFrom_app. }
      rewrite Hb3. cbn [mbind option_bind].
      rewrite Uint32_be32 by lia. cbn [mbind option_bind].
      rewrite length_app in Hlen.
      assert (H4 : length (be32Bytes (Z.of_nat (length value))) = 4%nat) by reflexivity.
      rewrite (uint32_small (Z.of_nat (length pre) + 3 + 4)),
        (uint32_small (Z.of_nat (length pre) + 3 + 4 + Z.of_nat (length value))),
        (uint32_small (Z.of_nat (length pre) + 3 + (4 + Z.of_nat (length value)))) by lia.
      assert (Hb7 : slice body (Z.of_nat (length pre) + 3 + 4)
                      (Z.of_nat (length pre) + 3 + 4 + Z.of_nat (length value))
                    = Some value).
      { replace (Z.of_nat (length pre) + 3 + 4)
          with (Z.of_nat (length ((pre ++ [u8 opIndex; u8 (status / 2 ^ 8); u8 status])
                                  ++ be32Bytes (Z.of_nat (length value)))))
          by (rewrite !length_app; cbn [length]; lia).
        rewrite Hbody, <- (app_assoc (be32Bytes _) value), (app_assoc _ (be32Bytes _)).
        apply slice_app. }
      rewrite Hb7. cbn [mbind option_bind].
      rewrite list_insert_insert_eq.
      specialize (IH fuel
        (pre ++ ([u8 opIndex] ++ [u8 (status / 2 ^ 8); u8 status]
                 ++ be32Bytes (Z.of_nat (length value)) ++ value))
        (<[Z.to_nat opIndex := {| ResErr := getMemdError status; ResValue := value |}]>
           results)).
      rewrite <- app_assoc in IH. fold body in IH.
      replace (Z.of_nat (length (pre ++ [u8 opIndex] ++ [u8 (status / 2 ^ 8); u8 status]
                                 ++ be32Bytes (Z.of_nat (length value)) ++ value)))
        with (Z.of_nat (length pre) + 3 + (4 + Z.of_nat (length value))) in IH
        by (rewrite !length_app; cbn [length]; lia).
      apply IH; [lia | by rewrite length_insert | lia].
    + (* any other status: the next entry follows at once *)
      specialize (IH fuel
        (pre ++ ([u8 opIndex] ++ [u8 (status / 2 ^ 8); u8 status] ++ []))
        (<[Z.to_nat opIndex := {| ResErr := getMemdError status; ResValue := ResValue old |}]>
           results)).
      rewrite <- app_assoc in IH. fold body in IH.
      replace (Z.of_nat (length (pre ++ [u8 opIndex] ++ [u8 (status / 2 ^ 8); u8 status] ++ [])))
        with (Z.of_nat (length pre) + 3) in IH
        by (rewrite !length_app; cbn [length]; lia).
      apply IH; [lia | by rewrite length_insert | lia].
Qed.

Lemma mutateBody_length (entries : list (Z * Z * list byte)) :
  (length entries <= length (mutateBody entries))%nat.
Proof.
  induction entries as [| entry rest IH]; [reflexivity |].
  unfold mutateBody in *. cbn [fmap list_fmap concat length]. rewrite length_app.
  pose proof (mutateEntryBytes_length entry). lia.
Qed.

(** X7. On success, a response body made of entries (operation index,
    status and, for status success, length and value) that name operations
    of the call is decoded entry by entry: the callback receives the results
    with the status of each named operation replaced, its value too when
    the status is success, the others untouched, together with the
    response's CAS and the mutation token. *)
Theorem SubDocMutate_handler_success (results : list SubDocResult) (resp : memdPacket)
    (req : option memdPacket) (entries : list (Z * Z * list byte)) (tok : MutationToken) :
  Value resp = mutateBody entries ->
  Z.of_nat (length (Value resp)) < 2 ^ 32 ->
  Forall (mutateEntryInRange (length results)) entries ->
  readMutationToken (Some resp) req = Some tok ->
  SubDocMutate_handler results (Some resp) req None
  = Some (MutateInCb (Some (foldl applyMutateEntry results entries)) (Cas resp) tok None).
Proof.
  intros Hbody Hsize Hrange Htok.
  unfold SubDocMutate_handler. cbn [notNil isSubDocBadMulti andb mbind option_bind].
  pose proof (mutateDecode_body entries (S (length (Value resp))) [] results) as Hdec.
  cbn [app length] in Hdec. change (Z.of_nat 0) with 0 in Hdec.
  rewrite <- Hbody in Hdec. rewrite Hdec.
  - cbn [mbind option_bind]. rewrite Htok. reflexivity.
  - rewrite Hbody. pose proof (mutateBody_length entries). lia.
  - exact Hrange.
  - exact Hsize.
Qed.

(** X8. The success path of the mutation handler has no [ErrProtocol]
    exit: on a body of one or two bytes, and on a body whose first entry
    names an operation index beyond the operations of the call, it panics
    (slice or index out of range) and no callback is made. *)
Theorem SubDocMutate_handler_unguarded (results : list SubDocResult) (resp : memdPacket)
    (req : option memdPacket) :
  ((0 < length (Value resp) < 3)%nat ->
   SubDocMutate_handler results (Some resp) req None = None) /\
  (forall opIndex s1 s0 rest,
     Value resp = opIndex :: s1 :: s0 :: rest ->
     Z.of_nat (length (Value resp)) < 2 ^ 32 ->
     (length results <= Z.to_nat (byteZ opIndex))%nat ->
     SubDocMutate_handler results (Some resp) req None = None).
Proof.
  unfold SubDocMutate_handler. cbn [notNil isSubDocBadMulti andb mbind option_bind].
  split.
  - intros Hshort.
    destruct (Value resp) as [| b0 [| b1 [| b2 l]]]; cbn [length] in Hshort; try lia;
      reflexivity.
  - intros opIndex s1 s0 rest Hbody Hsize Hidx. rewrite Hbody in *.
    cbn [mutateDecode].
    rewrite (uint32_small (Z.of_nat (length (opIndex :: s1 :: s0 :: rest)))) by lia.
    destruct (0 <? Z.of_nat (length (opIndex :: s1 :: s0 :: rest))) eqn:E;
      [| apply Z.ltb_ge in E; cbn [length] in E; lia].
    change (uint32 (0 + 0)) with 0. change (uint32 (0 + 1)) with 1.
    pose proof (index_app [] (s1 :: s0 :: rest) opIndex) as Hi. cbn [app length] in Hi.
    change (Z.of_nat 0) with 0 in Hi. rewrite Hi.
    cbn [fmap option_fmap option_map mbind option_bind].
    pose proof (sliceFrom_app [opIndex] (s1 :: s0 :: rest)) as Hs. cbn [app length] in Hs.
    change (Z.of_nat 1) with 1 in Hs. rewrite Hs.
    cbn [mbind option_bind Uint16].
    apply lookup_ge_None_2 in Hidx. rewrite Hidx. reflexivity.
Qed.

End MutateDecode.

(** * Further properties of [Agent.connect] *)

Section ConnectFacts.
Context {memdClient bucket : Type}.
Variable isAccessError : option error -> bool.
Variable dialMemdClient : string -> memdClient + error.
Variable ExecCccpRequest : memdClient -> Z -> list byte + error.
Variable hostFromHostPort : string -> string + error.
Variable parseConfig : list byte -> string -> bucket + error.
Variable supportsCccp : bucket -> bool.
Variable buildFirstRouteConfig : bucket -> string -> routeConfig.
Variable IsValid : routeConfig -> bool.
Variables serverConnectTimeout now deadline : Z.

Local Notation "'run'" :=
  (connect isAccessError dialMemdClient ExecCccpRequest hostFromHostPort
     parseConfig supportsCccp buildFirstRouteConfig IsValid
     serverConnectTimeout now deadline).
Local Notation "'dialError'" := (dialError dialMemdClient).
Local Notation "'bootstraps'" :=
  (bootstraps dialMemdClient ExecCccpRequest hostFromHostPort parseConfig supportsCccp
     buildFirstRouteConfig IsValid serverConnectTimeout now deadline).

(** X9. Endpoints whose dial fails with an error that is no access error
    are each tried and passed over: the loop of [connect] goes on with the
    endpoints listed after them exactly as if they had not been listed, and
    closes no client for them.  When every endpoint fails so, the loop is
    left without an error and without any client closed. *)
Theorem connect_all_dials_fail (memdAddrs more : list string) :
  (forall thisHostPort, thisHostPort ∈ memdAddrs ->
     exists e, dialMemdClient thisHostPort = inr e /\ isAccessError (Some e) = false) ->
  connect isAccessError dialMemdClient ExecCccpRequest hostFromHostPort parseConfig
    supportsCccp buildFirstRouteConfig IsValid serverConnectTimeout now deadline
    (memdAddrs ++ more)
  = connect isAccessError dialMemdClient ExecCccpRequest hostFromHostPort parseConfig
      supportsCccp buildFirstRouteConfig IsValid serverConnectTimeout now deadline more /\
  connect isAccessError dialMemdClient ExecCccpRequest hostFromHostPort parseConfig
    supportsCccp buildFirstRouteConfig IsValid serverConnectTimeout now deadline memdAddrs
  = (LoopEnded, []).
Proof.
  induction memdAddrs as [| hp rest IH]; intros Hfail; [by split |].
  destruct (Hfail hp) as (e & Hdial & Hacc); [by left |].
  destruct IH as [IHmore IHall]; [intros hp' Hin; apply Hfail; by right |].
  split.
  - change ((hp :: rest) ++ more) with (hp :: (rest ++ more)).
    cbn [connect]. rewrite Hdial, Hacc. exact IHmore.
  - cbn [connect]. rewrite Hdial, Hacc. exact IHall.
Qed.

(** X10. The only errors [connect] returns from its loop are access
    errors of a dial: a failing configuration request, address, parse or
    validity check is never returned; and when it returns one, that dial
    was of one of the endpoints given. *)
Theorem connect_returns_access_errors_only (memdAddrs : list string) (err : option error)
    (closed : list string) :
  connect isAccessError dialMemdClient ExecCccpRequest hostFromHostPort parseConfig
    supportsCccp buildFirstRouteConfig IsValid serverConnectTimeout now deadline memdAddrs
  = (ReturnErr err, closed) ->
  isAccessError err = true /\
  exists thisHostPort, thisHostPort ∈ memdAddrs /\ err = dialError thisHostPort.
Proof.
  revert closed. induction memdAddrs as [| hp rest IH]; intros closed Hrun;
    [discriminate |].
  cbn [connect] in Hrun.
  assert (Hrest : forall closed', run rest = (ReturnErr err, closed') ->
            isAccessError err = true /\
            exists thisHostPort, thisHostPort ∈ hp :: rest /\ err = dialError thisHostPort).
  { intros closed' Hr. destruct (IH closed' Hr) as [Hacc (hp' & Hin & Herr)].
    split; [exact Hacc | exists hp'; split; [by right | exact Herr]]. }
  destruct (isAccessError (match dialMemdClient hp with inl _ => None | inr e => Some e end))
    eqn:Hacc.
  { injection Hrun as <- <-. split; [exact Hacc |].
    exists hp. split; [by left | reflexivity]. }
  destruct (run rest) as [outcome closedRest] eqn:Hr.
  repeat match type of Hrun with
         | context [match ?x with _ => _ end] => destruct x
         end;
    cbn [fst snd] in Hrun;
    first [discriminate
          | injection Hrun as -> _; by eapply Hrest ].
Qed.

(** X11. When [connect] reaches "Successfully connected" for an
    endpoint, that endpoint is one of those given and passed every step
    (dial, configuration request, address and configuration parsing, CCCP
    support, validity of the route); the clients closed on the way belong
    to endpoints listed before it. *)
Theorem connect_connected_sound (memdAddrs : list string) (thisHostPort : string)
    (routeCfg : routeConfig) (closed : list string) :
  connect isAccessError dialMemdClient ExecCccpRequest hostFromHostPort parseConfig
    supportsCccp buildFirstRouteConfig IsValid serverConnectTimeout now deadline memdAddrs
  = (Connected thisHostPort routeCfg, closed) ->
  bootstraps thisHostPort routeCfg /\
  exists before after,
    memdAddrs = before ++ thisHostPort :: after /\ closed `sublist_of` before.
Proof.
  revert closed. induction memdAddrs as [| hp rest IH]; intros closed Hrun;
    [discriminate |].
  cbn [connect] in Hrun.
  assert (Hskip : forall closedRest,
            run rest = (Connected thisHostPort routeCfg, closedRest) ->
            bootstraps thisHostPort routeCfg /\
            exists before after,
              hp :: rest = before ++ thisHostPort :: after /\
              closedRest `sublist_of` before /\ hp :: closedRest `sublist_of` before).
  { intros closedRest Hr. destruct (IH closedRest Hr) as [Hb (before & after & -> & Hsub)].
    split; [exact Hb |]. exists (hp :: before), after.
    split; [reflexivity | split; [by apply sublist_cons | by apply sublist_skip]]. }
  destruct (isAccessError (match dialMemdClient hp with inl _ => None | inr e => Some e end));
    [discriminate |].
  destruct (run rest) as [outcome closedRest] eqn:Hr.
  destruct (dialMemdClient hp) as [client | e] eqn:Hdial.
  2:{ injection Hrun as -> ->.
      destruct (Hskip closed eq_refl) as [Hb (before & after & Heq & Hsub & _)]. eauto. }
  destruct (ExecCccpRequest client _) as [cccpBytes | e] eqn:Hcccp.
  2:{ cbn [fst snd] in Hrun. injection Hrun as -> <-.
      destruct (Hskip closedRest eq_refl) as [Hb (before & after & Heq & _ & Hsub)]. eauto. }
  destruct (hostFromHostPort hp) as [hostName | e] eqn:Hhost.
  2:{ cbn [fst snd] in Hrun. injection Hrun as -> <-.
      destruct (Hskip closedRest eq_refl) as [Hb (before & after & Heq & _ & Hsub)]. eauto. }
  destruct (parseConfig cccpBytes hostName) as [bk | e] eqn:Hparse.
  2:{ cbn [fst snd] in Hrun. injection Hrun as -> <-.
      destruct (Hskip closedRest eq_refl) as [Hb (before & after & Heq & _ & Hsub)]. eauto. }
  destruct (supportsCccp bk) eqn:Hsup; cbn [negb] in Hrun; [| discriminate].
  destruct (IsValid (buildFirstRouteConfig bk hp)) eqn:Hvalid; cbn [negb] in Hrun.
  - injection Hrun as <- <- <-. split.
    + exists client, cccpBytes, hostName, bk. repeat split; assumption.
    + exists [], rest. split; [reflexivity | constructor].
  - cbn [fst snd] in Hrun. injection Hrun as -> <-.
    destruct (Hskip closedRest eq_refl) as [Hb (before & after & Heq & _ & Hsub)]. eauto.
Qed.

(** X12. A bucket that does not support CCCP ends the loop: the client is
    closed and the endpoints after it are not tried, whatever they are. *)
Theorem connect_stops_without_cccp (thisHostPort : string) (rest : list string)
    (client : memdClient) (cccpBytes : list byte) (hostName : string) (bk : bucket) :
  isAccessError None = false ->
  dialMemdClient thisHostPort = inl client ->
  ExecCccpRequest client (Z.min (now + serverConnectTimeout) deadline) = inl cccpBytes ->
  hostFromHostPort thisHostPort = inl hostName ->
  parseConfig cccpBytes hostName = inl bk ->
  supportsCccp bk = false ->
  connect isAccessError dialMemdClient ExecCccpRequest hostFromHostPort parseConfig
    supportsCccp buildFirstRouteConfig IsValid serverConnectTimeout now deadline
    (thisHostPort :: rest)
  = (LoopEnded, [thisHostPort]).
Proof.
  intros Hnil Hdial Hcccp Hhost Hparse Hsup.
  cbn [connect]. rewrite Hdial, Hnil, Hcccp, Hhost, Hparse, Hsup. reflexivity.
Qed.

End ConnectFacts.

(** * Further properties of the configuration *)

Lemma fetchOption_absent (spec : ConnSpec) (name : string) :
  Options spec !! name = None \/ Options spec !! name = Some [] ->
  fetchOption spec name = ("", false).
Proof. unfold fetchOption. by intros [-> | ->]. Qed.

(** X13. [bootstrap_on] selects the host lists that [FromConnStr] stores:
    http keeps the HTTP hosts and drops the memcached hosts even when some
    are given, cccp does the reverse, and both, the empty value or no
    [bootstrap_on] at all keep both lists, without any check that a host
    exists.  Each host is stored as host:port. *)
Theorem FromConnStr_host_lists (spec : ConnSpec) :
  let val := (fetchOption spec "bootstrap_on").1 in
  let http := hostPort <$> HttpHosts spec in
  let memd := hostPort <$> MemdHosts spec in
  (val = "http" -> HttpHosts spec <> [] ->
     exists cfg, FromConnStr spec = inr cfg /\
       cfgMemdAddrs cfg = [] /\ cfgHttpAddrs cfg = http) /\
  (val = "cccp" -> MemdHosts spec <> [] ->
     exists cfg, FromConnStr spec = inr cfg /\
       cfgMemdAddrs cfg = memd /\ cfgHttpAddrs cfg = []) /\
  (val = "both" \/ val = "" \/ Options spec !! "bootstrap_on" = None ->
     exists cfg, FromConnStr spec = inr cfg /\
       cfgMemdAddrs cfg = memd /\ cfgHttpAddrs cfg = http).
Proof.
  intros val http memd. unfold FromConnStr. fold val.
  split; [| split].
  - intros -> Hhosts. cbn [String.eqb Ascii.eqb Bool.eqb andb].
    destruct (HttpHosts spec) as [| a l] eqn:E; [contradiction |].
    cbn [fmap list_fmap length Nat.eqb]. eexists; repeat split.
  - intros -> Hhosts. cbn [String.eqb Ascii.eqb Bool.eqb andb].
    destruct (MemdHosts spec) as [| a l] eqn:E; [contradiction |].
    cbn [fmap list_fmap length Nat.eqb]. eexists; repeat split.
  - intros Hval.
    assert (Hcase : val = "both" \/ val = "").
    { destruct Hval as [Hv | [Hv | Hv]]; [by left | by right | right].
      unfold val. rewrite fetchOption_absent; [reflexivity | by left]. }
    destruct Hcase as [-> | ->]; eexists; repeat split.
Qed.

(** X14. Under TLS [FromConnStr] collects the certificate paths in one of
    two ways.  When [cacertpath] or [keypath] is given, the CA paths are all
    values of [cacertpath] and the certificate and key are the last values
    of [certpath] and [keypath].  When neither is given, all values of
    [certpath] serve as CA paths and no certificate or key is set.  Without
    TLS none of these options is read. *)
Theorem FromConnStr_tls_paths (spec : ConnSpec) (cfg : connConfig) :
  FromConnStr spec = inr cfg ->
  let values name := default [] (Options spec !! name) in
  (UseSsl spec = false -> cfgTls cfg = None) /\
  (UseSsl spec = true -> values "cacertpath" <> [] \/ values "keypath" <> [] ->
     cfgTls cfg = Some {| certpath := (fetchOption spec "certpath").1;
                          keypath := (fetchOption spec "keypath").1;
                          cacertpaths := values "cacertpath" |}) /\
  (UseSsl spec = true -> values "cacertpath" = [] -> values "keypath" = [] ->
     cfgTls cfg = Some {| certpath := ""; keypath := "";
                          cacertpaths := values "certpath" |}).
Proof.
  intros Hcfg values.
  assert (Htls : cfgTls cfg = sslPaths spec).
  { unfold FromConnStr in Hcfg.
    repeat match type of Hcfg with
           | (if ?c then _ else _) = _ => destruct c
           end;
      first [discriminate | by injection Hcfg as <-]. }
  rewrite Htls. unfold sslPaths. fold (values "cacertpath") (values "keypath")
    (values "certpath").
  split; [| split].
  - by intros ->.
  - intros -> Hsome.
    destruct (values "cacertpath") as [| c cs]; destruct (values "keypath") as [| k ks];
      try reflexivity.
    by destruct Hsome.
  - by intros -> -> ->.
Qed.

(** [createAgent] uses a pool of one connection per node, queues of
    2048 operations and a KV connect timeout of 7 s unless the
    configuration gives a positive value, which then replaces the default;
    the server wait timeout is 5 s whatever the configuration. *)
Theorem createAgent_kv_defaults (config : AgentConfig) :
  (KvPoolSize config <= 0 -> kvPoolSize (createAgent config) = 1) /\
  (0 < KvPoolSize config -> kvPoolSize (createAgent config) = KvPoolSize config) /\
  (MaxQueueSize config <= 0 -> maxQueueSize (createAgent config) = 2048) /\
  (0 < MaxQueueSize config -> maxQueueSize (createAgent config) = MaxQueueSize config) /\
  (KVConnectTimeout config <= 0 ->
     kvConnectTimeout (createAgent config) = 7000 * Millisecond) /\
  (0 < KVConnectTimeout config ->
     kvConnectTimeout (createAgent config) = KVConnectTimeout config) /\
  serverWaitTimeout (createAgent config) = 5 * Second.
Proof.
  unfold createAgent. destruct (defaultAuthMechanisms config) as [mechs warns].
  cbn [kvPoolSize maxQueueSize kvConnectTimeout serverWaitTimeout]. unfold orDefault.
  repeat split; try intros Hopt;
    try match goal with
        | |- context [0 <? ?x] => destruct (0 <? x) eqn:E
        end;
    first [reflexivity | apply Z.ltb_lt in E; lia | apply Z.ltb_ge in E; lia].
Qed.

(** The first routing configuration lists the configured memcached
    addresses unchanged as KV servers and, as management endpoints, the
    configured HTTP addresses in order, each behind [https://] under TLS
    and [http://] otherwise; both multiplexers receive this same
    configuration. *)
Theorem createAgent_first_route (config : AgentConfig) :
  let cfg := kvMuxRoute (createAgent config) in
  httpMuxRoute (createAgent config) = cfg /\
  kvServerList cfg = MemdAddrs config /\
  mgmtEpList cfg = httpEpList (createAgent config) /\
  length (mgmtEpList cfg) = length (HTTPAddrs config) /\
  (forall i addr, HTTPAddrs config !! i = Some addr ->
     mgmtEpList cfg !! i
     = Some ((if UseTLS config then "https://" else "http://") +:+ addr)).
Proof.
  unfold createAgent. destruct (defaultAuthMechanisms config) as [mechs warns].
  cbn [kvMuxRoute httpMuxRoute kvServerList mgmtEpList httpEpList].
  repeat split.
  - by rewrite length_fmap.
  - intros i addr Haddr. rewrite list_lookup_fmap, Haddr.
    by destruct (UseTLS config).
Qed.

(** X15. Mechanisms that the configuration names are used as they are,
    in their order, PLAIN included: without TLS each PLAIN among them is
    answered with one warning and nothing else, under TLS with none. *)
Theorem configured_mechanisms_unchanged (config : AgentConfig) :
  AuthMechanisms config <> [] ->
  authMechanisms (createAgent config) = AuthMechanisms config /\
  warnings (createAgent config)
  = if UseTLS config then []
    else replicate (length (filter (fun mech => mech = PlainAuthMechanism)
                              (AuthMechanisms config))) plainWarning.
Proof.
  intros Hsome. unfold createAgent, defaultAuthMechanisms.
  destruct (AuthMechanisms config) as [| m ms] eqn:E; [contradiction |].
  cbn [length Nat.eqb]. destruct (UseTLS config); cbn [negb authMechanisms warnings];
    [by split |].
  split; [reflexivity |].
  generalize (m :: ms). intros l. induction l as [| x l IH]; [reflexivity |].
  rewrite !filter_cons.
  destruct x; cbn [isPlain]; repeat case_decide; try congruence;
    cbn [fmap list_fmap length replicate]; by rewrite ?IH.
Qed.

(** X16. The DCP queue has the least number of 24-byte slots that
    covers the DCP buffer, for the default buffer of 8 MiB (349526 slots)
    as for any configured size that leaves [int] room for the rounding. *)
Theorem dcpQueueSize_covers (configDcpBufferSize : Z) :
  configDcpBufferSize + 23 < 2 ^ 63 ->
  let buffer := dcpBufferSize configDcpBufferSize in
  let queue := dcpQueueSize configDcpBufferSize in
  24 * (queue - 1) < buffer <= 24 * queue /\
  (configDcpBufferSize <= 0 -> buffer = 8388608 /\ queue = 349526) /\
  (0 < configDcpBufferSize -> buffer = configDcpBufferSize).
Proof.
  intros Hroom buffer queue. unfold queue, dcpQueueSize. fold buffer.
  assert (Hpos : 0 < buffer /\ buffer + 23 < 2 ^ 63).
  { unfold buffer, dcpBufferSize. destruct (0 <? configDcpBufferSize) eqn:E.
    - apply Z.ltb_lt in E. lia.
    - lia. }
  assert (Hint : int64 (buffer + 23) = buffer + 23).
  { unfold int64. rewrite Z.mod_small; lia. }
  rewrite Hint, Z.quot_div_nonneg by lia.
  split; [| split].
  - pose proof (Z.div_mod (buffer + 23) 24 ltac:(lia)) as Hdm.
    pose proof (Z.mod_pos_bound (buffer + 23) 24 ltac:(lia)). lia.
  - intros Hunset. unfold buffer, dcpBufferSize.
    destruct (0 <? configDcpBufferSize) eqn:E; [apply Z.ltb_lt in E; lia |].
    split; reflexivity.
  - intros Hset. unfold buffer, dcpBufferSize.
    destruct (0 <? configDcpBufferSize) eqn:E; [reflexivity | apply Z.ltb_ge in E; lia].
Qed.

Lemma dcpQueueSize_covers_witness :
  24 * (dcpQueueSize 1000 - 1) < 1000 <= 24 * dcpQueueSize 1000 /\ dcpQueueSize 0 = 349526.
Proof.
  split.
  - exact (proj1 (dcpQueueSize_covers 1000 eq_refl)).
  - exact (proj2 (proj1 (proj2 (dcpQueueSize_covers 0 eq_refl)) ltac:(discriminate))).
Defined.

Section AuthHandlerFacts.
Variable getKvAuthCreds : string -> UserPassPair + error.
Variable SaslAuthPlain : string -> string -> option error.
Variable supportsSelectBucket : bool.
Variable ExecSelectBucket : list byte -> option error.

(** X17. The default authentication handler makes no call when the
    credentials cannot be obtained, and returns that error.  With the
    credentials it makes at most two calls, each at most once and in this
    order: PLAIN authentication with the credentials obtained, exactly when
    user name or password is not empty; then the selection of the bucket,
    exactly when the client supports it and authentication succeeded or was
    skipped.  It returns nil exactly when the credentials were obtained and
    every call it made returned nil. *)
Theorem default_auth_handler_order (bucketName address : string) :
  let steps := (makeDefaultAuthHandler getKvAuthCreds SaslAuthPlain supportsSelectBucket
                  ExecSelectBucket bucketName address).1 in
  let result := (makeDefaultAuthHandler getKvAuthCreds SaslAuthPlain supportsSelectBucket
                  ExecSelectBucket bucketName address).2 in
  (forall e, getKvAuthCreds address = inr e -> steps = [] /\ result = Some e) /\
  (forall creds, getKvAuthCreds address = inl creds ->
     let auth := CallSaslAuthPlain (Username creds) (Password creds) in
     let select := CallExecSelectBucket (list_byte_of_string bucketName) in
     steps `sublist_of` [auth; select] /\
     (auth ∈ steps <-> Username creds <> "" \/ Password creds <> "") /\
     (select ∈ steps <->
        supportsSelectBucket = true /\
        ((Username creds = "" /\ Password creds = "") \/
         SaslAuthPlain (Username creds) (Password creds) = None))) /\
  (forall name, CallExecSelectBucket name ∈ steps ->
     name = list_byte_of_string bucketName /\ supportsSelectBucket = true /\
     exists creds, getKvAuthCreds address = inl creds /\
       ((Username creds = "" /\ Password creds = "" /\ steps = [CallExecSelectBucket name]) \/
        (SaslAuthPlain (Username creds) (Password creds) = None /\
         steps = [CallSaslAuthPlain (Username creds) (Password creds);
                  CallExecSelectBucket name]))) /\
  (forall u p, CallSaslAuthPlain u p ∈ steps ->
     getKvAuthCreds address = inl {| Username := u; Password := p |} /\
     (u <> "" \/ p <> "")) /\
  (result = None <->
     exists creds, getKvAuthCreds address = inl creds /\
       ((Username creds = "" /\ Password creds = "") \/
        SaslAuthPlain (Username creds) (Password creds) = None) /\
       (supportsSelectBucket = false \/
        ExecSelectBucket (list_byte_of_string bucketName) = None)).
Proof.
  unfold makeDefaultAuthHandler.
  destruct (getKvAuthCreds address) as [[u p] | e]; cbn [Username Password fst snd].
  2:{ split; [| split; [| split; [| split]]].
      - intros e' He. by injection He as <-.
      - discriminate.
      - intros name Hin. by apply elem_of_nil in Hin.
      - intros u p Hin. by apply elem_of_nil in Hin.
      - split; [discriminate | intros (creds & Hc & _); discriminate]. }
  assert (Hcreds : forall creds : UserPassPair,
            inl (B := error) {| Username := u; Password := p |} = inl creds ->
            Username creds = u /\ Password creds = p)
    by (intros creds Hc; by injection Hc as <-).
  split; [discriminate |].
  split.
  { intros creds Hc. destruct (Hcreds creds Hc) as [-> ->]. clear Hc Hcreds.
    cbn zeta.
    destruct (String.eqb_spec u "") as [Hu | Hu]; destruct (String.eqb_spec p "") as [Hp | Hp];
      cbn [negb orb fst snd];
      try (destruct (SaslAuthPlain u p) as [authErr |] eqn:Hauth);
      destruct supportsSelectBucket; cbn [fst snd app];
      (split; [repeat constructor |]);
      rewrite ?elem_of_cons, ?elem_of_nil;
      (split; split; intros Hside);
      repeat match goal with
             | Hor : _ \/ _ |- _ => destruct Hor
             | Hand : _ /\ _ |- _ => destruct Hand
             end;
      try contradiction; try discriminate; try congruence;
      try (left; reflexivity); try (right; left; reflexivity);
      try (split; [reflexivity |]); try tauto. }
  destruct (String.eqb_spec u "") as [Hu | Hu]; destruct (String.eqb_spec p "") as [Hp | Hp];
    cbn [negb orb fst snd];
    try (destruct (SaslAuthPlain u p) as [authErr |] eqn:Hauth);
    destruct supportsSelectBucket;
    try (destruct (ExecSelectBucket (list_byte_of_string bucketName)) as [selErr |] eqn:Hsel);
    cbn [fst snd app];
    (split; [| split; [| split]]);
    try (intros name Hin;
         repeat (apply elem_of_cons in Hin as [Hin | Hin]);
         try (by apply elem_of_nil in Hin); try discriminate Hin;
         injection Hin as ->;
         split; try reflexivity; split; try reflexivity;
         eexists; split; try reflexivity; cbn [Username Password];
         first [by left | by right]);
    try (intros u' p' Hin;
         repeat (apply elem_of_cons in Hin as [Hin | Hin]);
         try (by apply elem_of_nil in Hin); try discriminate Hin;
         injection Hin as -> ->; split; first [reflexivity | tauto]);
    try discriminate;
    try (intros _; eexists; split; try reflexivity; cbn [Username Password]; tauto);
    try (intros (creds & Hc & Hstep & Hselect);
         destruct (Hcreds creds Hc) as [Hcu Hcp]; rewrite Hcu, Hcp in *;
         destruct Hstep as [[Hu' Hp'] | Hstep]; destruct Hselect as [Hselect | Hselect];
         congruence).
Qed.

End AuthHandlerFacts.

(** * Properties of the error wrappers *)

Lemma asKeyValueError_none : forall e, noKeyValueError e -> asKeyValueError e = None.
Proof.
  fix IH 1.
  intros [v t | m [e' |] | [e' |] i | inner st info | [e' |]];
    cbn [noKeyValueError asKeyValueError mbind option_bind];
    intros Hno; first [reflexivity | contradiction | by apply IH].
Qed.

(** X18. [isErrorStatus] finds a [KeyValueError] under any number of
    [wrapError], [SubDocumentError] and protecting [ncError] layers and
    compares its status with the code; it answers false for a nil error and
    for an error with no [KeyValueError] on its chain. *)
Theorem isErrorStatus_through_wrappers (code : Z) :
  (forall outer inner status info,
     wraps outer (KeyValueError inner status info) ->
     isErrorStatus (Some outer) code = (status =? code)) /\
  (forall e, noKeyValueError e -> isErrorStatus (Some e) code = false) /\
  isErrorStatus None code = false.
Proof.
  split; [| split; [| reflexivity]].
  - intros outer inner status info Hwraps.
    remember (KeyValueError inner status info) as kv eqn:Hkv.
    induction Hwraps as [e | outer mid kv Hlayer Hwraps IH]; [by subst |].
    specialize (IH Hkv). destruct Hlayer; exact IH.
  - intros e Hno. unfold isErrorStatus. cbn [mbind option_bind].
    by rewrite asKeyValueError_none.
Qed.


(** * The lookup handler, exactly *)

Section LookupExact.
Context `{MemdConstants}.
Import Bytes.

(** X20. On a response without error, or with [ErrSubDocBadMulti], the
    lookup handler hands over results exactly when the body starts with one
    complete entry (status, length, value) for each operation: the results
    are then these entries decoded, in order, beside the response's CAS and
    the error as it came, and whatever follows the entries is ignored.  On
    any other body the callback receives no results and [ErrProtocol]. *)
Theorem SubDocLookup_handler_exact (results : list SubDocResult) (resp : memdPacket)
    (req : option memdPacket) (err : option error) :
  err = None \/ err = Some ErrSubDocBadMulti ->
  (forall entries trailing,
     length entries = length results -> Forall entryInRange entries ->
     Value resp = lookupBody entries ++ trailing ->
     SubDocLookup_handler results (Some resp) req err
     = Some (LookupInCb (Some (decodedEntry <$> entries)) (Cas resp) err)) /\
  (forall decoded cas err',
     SubDocLookup_handler results (Some resp) req err
     = Some (LookupInCb (Some decoded) cas err') ->
     cas = Cas resp /\ err' = err /\
     exists entries trailing,
       length entries = length results /\ Forall entryInRange entries /\
       Value resp = lookupBody entries ++ trailing /\
       decoded = decodedEntry <$> entries) /\
  ((forall entries trailing,
      length entries = length results -> Forall entryInRange entries ->
      Value resp <> lookupBody entries ++ trailing) ->
   SubDocLookup_handler results (Some resp) req err
   = Some (LookupInCb None 0 (Some ErrProtocol))).
Proof.
  intros Herr.
  assert (Hgate : notNil err && negb (isSubDocBadMulti err) = false)
    by (destruct Herr as [-> | ->]; reflexivity).
  unfold SubDocLookup_handler. rewrite Hgate. cbn [mbind option_bind].
  assert (Hconv : forall decoded,
            lookupDecode (Value resp) results 0 = Some (inr decoded) ->
            exists entries trailing,
              length entries = length results /\ Forall entryInRange entries /\
              Value resp = lookupBody entries ++ trailing /\
              decoded = decodedEntry <$> entries).
  { intros decoded Hdec.
    destruct (lookupDecode_results _ _ 0 decoded ltac:(lia) Hdec)
      as (entries & trailing & Hlen & Hrange & Hdrop & Hres).
    exists entries, trailing. by repeat split. }
  split; [| split].
  - intros entries trailing Hlen Hrange Hbody. rewrite Hbody.
    pose proof (lookupDecode_body entries [] trailing results (eq_sym Hlen) Hrange) as Hd.
    cbn [app length] in Hd. change (Z.of_nat 0) with 0 in Hd. by rewrite Hd.
  - intros decoded cas err' Hcall.
    destruct (lookupDecode_total (Value resp) results 0 ltac:(lia)) as (r & Hr & _).
    rewrite Hr in Hcall. cbn [mbind option_bind] in Hcall.
    destruct r as [e | rs]; [discriminate |].
    injection Hcall as <- <- <-. split; [reflexivity | split; [reflexivity |]].
    by apply Hconv.
  - intros Hnone.
    destruct (lookupDecode_total (Value resp) results 0 ltac:(lia)) as (r & Hr & Hcase).
    rewrite Hr. cbn [mbind option_bind].
    destruct r as [e | rs]; [by subst e |].
    destruct (Hconv rs Hr) as (entries & trailing & Hlen & Hrange & Hbody & _).
    exfalso. by eapply Hnone.
Qed.

End LookupExact.

(** * The properties above on sample inputs *)

Lemma SubDocLookup_frame_layout_witness :
  sentPacket (SubDocLookup (H := wireConstants) [x6b] lookupTwo)
  = Some {| Magic := x80; Opcode := xd0; Datatype := 0; Vbucket := 0; Cas := 0;
            Extras := []; Key := [x6b];
            Value := [xc5; x00; x00; x01; x61; xc5; x00; x00; x01; x62] |}.
Proof.
  apply (@SubDocLookup_frame_layout wireConstants [x6b] lookupTwo).
  intros op Hin. unfold lookupTwo in Hin.
  apply elem_of_cons in Hin as [-> | Hin];
    [| apply elem_of_cons in Hin as [-> | Hin]; [| by apply elem_of_nil in Hin]];
    (split; [left |]; reflexivity).
Defined.

Lemma SubDocMutate_frame_layout_witness :
  sentPacket (SubDocMutate (H := wireConstants) [x6b] mutateTwo 7 60)
  = Some {| Magic := x80; Opcode := xd1; Datatype := 0; Vbucket := 0; Cas := 7;
            Extras := [x00; x00; x00; x3c]; Key := [x6b];
            Value := [xc8; x00; x00; x01; x00; x00; x00; x01; x61; x31;
                      xc9; x00; x00; x02; x00; x00; x00; x00; x62; x63] |}.
Proof.
  apply (@SubDocMutate_frame_layout wireConstants [x6b] mutateTwo 7 60).
  intros op Hin. unfold mutateTwo in Hin.
  apply elem_of_cons in Hin as [-> | Hin];
    [| apply elem_of_cons in Hin as [-> | Hin]; [| by apply elem_of_nil in Hin]];
    apply list_elem_of_In; cbn; tauto.
Defined.

Lemma path_length_wraps_witness :
  Extras <$> sentPacket (GetIn (H := wireConstants) [x6b] (longPath (2 ^ 16)))
  = Extras <$> sentPacket (GetIn (H := wireConstants) [x6b] "").
Proof.
  apply (proj1 (@path_length_wraps wireConstants [x6b] (longPath (2 ^ 16)) "" 0 0
                  ltac:(vm_compute; reflexivity))).
Defined.

Lemma mutation_token_read_witness :
  storeIn_handler (Some (tokenResponse [xff])) (Some (requestOn 12)) None
  = Some (StoreInCb 9 {| VbId := 12; VbUuid := 258; SeqNo := 3 |} None) /\
  RemoveIn_handler (Some (responseWith [])) None None = Some (RemoveInCb 9 noToken None).
Proof.
  split.
  - apply (proj1 (mutation_token_read (tokenResponse [xff]) (requestOn 12) 258 3 [xff]));
      [lia | lia | reflexivity].
  - apply (proj2 (mutation_token_read (responseWith []) (requestOn 0) 0 0 [])
             ltac:(cbn; lia) None).
Defined.

Lemma SubDocMutate_handler_success_witness :
  SubDocMutate_handler (H := wireConstants) [noResult; noResult]
    (Some (responseWith [x01; x00; x00; x00; x00; x00; x01; x35; x00; x00; x01])) None None
  = Some (MutateInCb
            (Some [ {| ResErr := Some (ErrOther "status 1"); ResValue := [] |};
                    {| ResErr := None; ResValue := [x35] |} ])
            9 noToken None).
Proof.
  apply (@SubDocMutate_handler_success wireConstants [noResult; noResult]
           (responseWith [x01; x00; x00; x00; x00; x00; x01; x35; x00; x00; x01]) None
           [(1, 0, [x35]); (0, 1, [])] noToken).
  - reflexivity.
  - cbn. lia.
  - repeat constructor; cbn; lia.
  - reflexivity.
Defined.

Lemma SubDocMutate_handler_unguarded_witness :
  SubDocMutate_handler (H := wireConstants) [noResult] (Some (responseWith [x00; x00])) None None
  = None /\
  SubDocMutate_handler (H := wireConstants) [noResult]
    (Some (responseWith [x01; x00; x01])) None None
  = None.
Proof.
  split.
  - apply (proj1 (@SubDocMutate_handler_unguarded wireConstants [noResult]
                    (responseWith [x00; x00]) None)).
    cbn. lia.
  - apply (proj2 (@SubDocMutate_handler_unguarded wireConstants [noResult]
                    (responseWith [x01; x00; x01]) None) x01 x00 x01 []);
      [reflexivity | cbn; lia | cbn; lia].
Defined.

Lemma connect_all_dials_fail_witness :
  sampleConnect ["a:11210"; "a:11210"; "c:11210"] = sampleConnect ["c:11210"] /\
  sampleConnect ["a:11210"; "a:11210"] = (LoopEnded, []).
Proof.
  unfold sampleConnect.
  apply (connect_all_dials_fail (memdClient := unit) (bucket := unit)
           sampleIsAccessError sampleDial
           (fun _ _ => inl []) (fun hp => inl hp) (fun _ _ => inl tt) (fun _ => true)
           (fun _ hp => {| kvServerList := [hp]; mgmtEpList := []; revID := 1 |})
           (fun _ => true) (7000 * Millisecond) 0 (60 * Second)
           ["a:11210"; "a:11210"] ["c:11210"]).
  intros thisHostPort Hin.
  apply elem_of_cons in Hin as [-> | Hin];
    [| apply elem_of_cons in Hin as [-> | Hin]; [| by apply elem_of_nil in Hin]];
    (exists (ErrOther "connection refused"); split; reflexivity).
Defined.

Lemma connect_returns_access_errors_only_witness :
  sampleIsAccessError (Some (ErrOther "access denied")) = true /\
  exists thisHostPort,
    thisHostPort ∈ ["a:11210"; "b:11210"; "c:11210"] /\
    Some (ErrOther "access denied") = dialError sampleDial thisHostPort.
Proof.
  exact (connect_returns_access_errors_only (memdClient := unit) (bucket := unit)
           sampleIsAccessError sampleDial
           (fun _ _ => inl []) (fun hp => inl hp) (fun _ _ => inl tt) (fun _ => true)
           (fun _ hp => {| kvServerList := [hp]; mgmtEpList := []; revID := 1 |})
           (fun _ => true) (7000 * Millisecond) 0 (60 * Second)
           ["a:11210"; "b:11210"; "c:11210"] (Some (ErrOther "access denied")) [] eq_refl).
Defined.

Lemma connect_connected_sound_witness :
  exists before after,
    ["a:11210"; "c:11210"; "d:11210"] = before ++ "c:11210" :: after /\
    [] `sublist_of` before.
Proof.
  exact (proj2 (connect_connected_sound (memdClient := unit) (bucket := unit)
           sampleIsAccessError sampleDial
           (fun _ _ => inl []) (fun hp => inl hp) (fun _ _ => inl tt) (fun _ => true)
           (fun _ hp => {| kvServerList := [hp]; mgmtEpList := []; revID := 1 |})
           (fun _ => true) (7000 * Millisecond) 0 (60 * Second)
           ["a:11210"; "c:11210"; "d:11210"] "c:11210"
           {| kvServerList := ["c:11210"]; mgmtEpList := []; revID := 1 |} [] eq_refl)).
Defined.

Lemma connect_stops_without_cccp_witness :
  sampleConnectNoCccp ["c:11210"; "d:11210"] = (LoopEnded, ["c:11210"]).
Proof.
  unfold sampleConnectNoCccp.
  apply (connect_stops_without_cccp (memdClient := unit) (bucket := unit)
           _ _ _ _ _ _ _ _ _ _ _ "c:11210" ["d:11210"] tt [] "c:11210" tt);
    reflexivity.
Defined.

Lemma FromConnStr_host_lists_witness :
  (exists cfg, FromConnStr (sampleSpec ["cccp"; "http"]) = inr cfg /\
     cfgMemdAddrs cfg = [] /\ cfgHttpAddrs cfg = ["h1:8091"]) /\
  (exists cfg, FromConnStr sampleTlsSpec = inr cfg /\
     cfgMemdAddrs cfg = ["h1:11207"] /\ cfgHttpAddrs cfg = ["h1:18091"]).
Proof.
  split.
  - apply (proj1 (FromConnStr_host_lists (sampleSpec ["cccp"; "http"])));
      [reflexivity | discriminate].
  - apply (proj2 (proj2 (FromConnStr_host_lists sampleTlsSpec))).
    right. right. reflexivity.
Defined.

Lemma FromConnStr_tls_paths_witness :
  cfgTls {| cfgMemdAddrs := ["h1:11207"]; cfgHttpAddrs := ["h1:18091"];
            cfgTls := sslPaths sampleTlsSpec |}
  = Some {| certpath := ""; keypath := ""; cacertpaths := ["ca1.pem"; "ca2.pem"] |}.
Proof.
  apply (proj1 (proj2 (FromConnStr_tls_paths sampleTlsSpec
                         {| cfgMemdAddrs := ["h1:11207"]; cfgHttpAddrs := ["h1:18091"];
                            cfgTls := sslPaths sampleTlsSpec |} eq_refl)));
    [reflexivity | left; discriminate].
Defined.

Lemma configured_mechanisms_unchanged_witness :
  authMechanisms
    (createAgent (plainConfig false [PlainAuthMechanism; ScramSha1AuthMechanism;
                                     PlainAuthMechanism]))
  = [PlainAuthMechanism; ScramSha1AuthMechanism; PlainAuthMechanism] /\
  warnings
    (createAgent (plainConfig false [PlainAuthMechanism; ScramSha1AuthMechanism;
                                     PlainAuthMechanism]))
  = [plainWarning; plainWarning].
Proof.
  apply (configured_mechanisms_unchanged
           (plainConfig false [PlainAuthMechanism; ScramSha1AuthMechanism;
                               PlainAuthMechanism])).
  discriminate.
Defined.

Lemma isErrorStatus_through_wrappers_witness :
  isErrorStatus (Some (ncError (Some (SubDocumentError (Some sampleKeyValueError) 0)))) 1
  = true.
Proof.
  refine (proj1 (isErrorStatus_through_wrappers 1)
            (ncError (Some (SubDocumentError (Some sampleKeyValueError) 0))) _ 1 _ _).
  eapply wraps_layer; [apply layer_nc |].
  eapply wraps_layer; [apply layer_subdoc |]. apply wraps_here.
Defined.

Lemma SubDocLookup_handler_exact_witness :
  SubDocLookup_handler (H := wireConstants) [noResult; noResult]
    (Some (responseWith [x00; x00; x00; x00; x00; x01; x35;
                         x00; x01; x00; x00; x00; x00; xff])) None
    (Some ErrSubDocBadMulti)
  = Some (LookupInCb
            (Some [ {| ResErr := None; ResValue := [x35] |};
                    {| ResErr := Some (ErrOther "status 1"); ResValue := [] |} ])
            9 (Some ErrSubDocBadMulti)).
Proof.
  apply (proj1 (@SubDocLookup_handler_exact wireConstants [noResult; noResult]
                  (responseWith [x00; x00; x00; x00; x00; x01; x35;
                                 x00; x01; x00; x00; x00; x00; xff]) None
                  (Some ErrSubDocBadMulti) (or_intror eq_refl))
           [(0, [x35]); (1, [])] [xff]).
  - reflexivity.
  - repeat constructor; cbn; lia.
  - reflexivity.
Defined.
